(** * blade: the ninja rules generator ([src/blade/rules_generator.py])

    A shallow embedding of [NinjaScriptHeaderGenerator]: the generator
    object is a record holding the rule buffer and the set of rule
    names, the process environment ([os.environ]) is threaded with it,
    and every [generate_*] method is a computation in a small
    state-and-error monad. Strings are kept as the code builds them. *)

From Stdlib Require Import Ascii ZArith.
From stdpp Require Import base strings list gmap pretty.

(* Appending to a literal should compute under [simpl]. *)
#[global] Arguments String.append !_ _ : simpl nomatch.

(** ** Python strings *)

Module Py.

(** The newline character that [_add_rule] appends. *)
Definition nl : string := String (ascii_of_nat 10) EmptyString.

(** The double quote of the [scm] and [resource] command templates. *)
Definition dq : string := String (ascii_of_nat 34) EmptyString.

(** Truth value of a [str]: the empty string is false. *)
Definition truthy (s : string) : bool :=
  match s with
  | EmptyString => false
  | String _ _ => true
  end.

(** Truth value of a value that is [None] or a [str]. *)
Definition truthy_opt (o : option string) : bool :=
  match o with
  | None => false
  | Some s => truthy s
  end.

(** [sep.join(l)] *)
Fixpoint join (sep : string) (l : list string) : string :=
  match l with
  | [] => EmptyString
  | [x] => x
  | x :: xs => x +:+ sep +:+ join sep xs
  end.

(** [s.startswith(p)] *)
Fixpoint startswith (p s : string) : bool :=
  match p, s with
  | EmptyString, _ => true
  | String a p', String b s' => if Ascii.eqb a b then startswith p' s' else false
  | String _ _, EmptyString => false
  end.

(** [s.endswith(p)] for a one-character [p]. *)
Fixpoint endswith_char (c : ascii) (s : string) : bool :=
  match s with
  | EmptyString => false
  | String a EmptyString => Ascii.eqb a c
  | String _ s' => endswith_char c s'
  end.

(** [s.replace(old, new)]: every non-overlapping occurrence of [old],
  scanning from the left. [skip] counts the characters of a matched
  occurrence still to be passed over. For an empty [old] Python
  puts [new] before every character and at the end. *)
Fixpoint replace_go (old new : string) (skip : nat) (s : string) : string :=
  match s with
  | EmptyString => EmptyString
  | String c s' =>
      match skip with
      | S k => replace_go old new k s'
      | O =>
          if startswith old s
          then new +:+ replace_go old new (String.length old - 1) s'
          else String c (replace_go old new 0 s')
      end
  end.

Fixpoint intersperse (new : string) (s : string) : string :=
  match s with
  | EmptyString => new
  | String c s' => new +:+ String c (intersperse new s')
  end.

Definition replace (old new s : string) : string :=
  match old with
  | EmptyString => intersperse new s
  | String _ _ => replace_go old new 0 s
  end.

(** [s.split('/')]: always at least one piece. *)
Fixpoint split_slash (s : string) : list string :=
  match s with
  | EmptyString => [EmptyString]
  | String c s' =>
      if Ascii.eqb c "/"
      then EmptyString :: split_slash s'
      else match split_slash s' with
           | [] => [String c EmptyString]
           | x :: xs => String c x :: xs
           end
  end.

(** ['%s' % n] for an [int]. *)
Definition str_of_int (n : Z) : string := pretty n.

End Py.

(** ** [os.path] on POSIX ([posixpath]) *)

Module OsPath.
Import Py.

Definition isabs (s : string) : bool := startswith "/" s.

(** One step of the loop of [posixpath.join]. *)
Definition join2 (path b : string) : string :=
  if startswith "/" b then b
  else if negb (truthy path) || endswith_char "/" path then path +:+ b
  else path +:+ "/" +:+ b.

(** [os.path.join(a, *p)] *)
Definition join (a : string) (p : list string) : string :=
  fold_left join2 p a.

(** The loop of [posixpath.normpath] over the components; [acc] is
  [new_comps] in reverse. *)
Fixpoint normpath_comps (initial_slashes : nat) (comps : list string)
    (acc : list string) : list string :=
  match comps with
  | [] => rev acc
  | comp :: rest =>
      if String.eqb comp "" || String.eqb comp "." then
      normpath_comps initial_slashes rest acc
      else if negb (String.eqb comp "..")
              || (Nat.eqb initial_slashes 0 && match acc with [] => true | _ => false end)
              || match acc with last :: _ => String.eqb last ".." | [] => false end
      then normpath_comps initial_slashes rest (comp :: acc)
      else match acc with
           | _ :: acc' => normpath_comps initial_slashes rest acc'
           | [] => normpath_comps initial_slashes rest acc
           end
  end.

Definition normpath (path : string) : string :=
  if negb (truthy path) then "."
  else
    let initial_slashes :=
      if startswith "/" path then
        if startswith "//" path && negb (startswith "///" path) then 2 else 1
      else 0 in
    let comps := normpath_comps initial_slashes (split_slash path) [] in
    let path' := Py.join "/" comps in
    let path' :=
      match initial_slashes with
      | 0 => path'
      | 1 => "/" +:+ path'
      | _ => "//" +:+ path'
      end in
    if truthy path' then path' else ".".

(** [os.path.abspath(path)]; [cwd] is [os.getcwd()]. *)
Definition abspath (cwd path : string) : string :=
  if isabs path then normpath path else normpath (join cwd [path]).

(** Length of the longest common prefix of two component lists:
  [len(commonprefix([start_list, path_list]))]. *)
Fixpoint common_len (l1 l2 : list string) : nat :=
  match l1, l2 with
  | x :: l1', y :: l2' => if String.eqb x y then S (common_len l1' l2') else 0
  | _, _ => 0
  end.

Definition nonempty_comps (s : string) : list string :=
  List.filter truthy (split_slash s).

(** [os.path.relpath(path, start)]; [None] is the [ValueError] raised
  for an empty [path]. [start] is never [None] at the call sites,
  an empty [start] goes through [abspath] like any other. *)
Definition relpath (cwd path start : string) : option string :=
  if negb (truthy path) then None
  else
    let start_list := nonempty_comps (abspath cwd start) in
    let path_list := nonempty_comps (abspath cwd path) in
    let i := common_len start_list path_list in
    let rel_list :=
      List.repeat ".." (length start_list - i) ++ List.skipn i path_list in
    match rel_list with
    | [] => Some "."
    | a :: p => Some (join a p)
    end.

End OsPath.

Import Py.


(** ** The generator object, the process environment and the monad *)

(** [rules_buf] and [__all_rule_names] are the two mutable attributes of
    the generator; [environ] is [os.environ], written by
    [generate_cc_rules]. *)
Record state := mkState {
  rules_buf : list string;
  all_rule_names : gset string;
  environ : gmap string string;
}.

(** What stops a run: [console.error_exit] ends the process, [relpath]
    raises [ValueError] on an empty path. *)
Inductive error :=
  | SystemExit (msg : string)
  | ValueError (msg : string).

(** A method either returns, or stops with the state it had reached:
    its appends to the buffer are mutations and stay done. *)
Inductive result (A : Type) :=
  | Ok (a : A) (s : state)
  | Err (e : error) (s : state).
Arguments Ok {A} a s.
Arguments Err {A} e s.

Definition M (A : Type) : Type := state -> result A.

#[global] Instance M_ret : MRet M := fun A (a : A) s => Ok a s.

#[global] Instance M_bind : MBind M := fun A B (f : A -> M B) (m : M A) s =>
  match m s with
  | Ok a s' => f a s'
  | Err e s' => Err e s'
  end.

Definition raise {A} (e : error) : M A := fun s => Err e s.

(** [if c: body] *)
Definition when (c : bool) (body : M unit) : M unit :=
  if c then body else mret tt.

(** [if v: body(v)] for a [v] that is [None] or a [str]. *)
Definition when_str (v : option string) (body : string -> M unit) : M unit :=
  match v with
  | Some (String c s) => body (String c s)
  | _ => mret tt
  end.

(** The state a computation stops in, whichever way it stops. *)
Definition final {A} (r : result A) : state :=
  match r with
  | Ok _ s => s
  | Err _ s => s
  end.

(** A generator just constructed, in a process with environment [env]. *)
Definition fresh_generator (env : gmap string string) : state :=
  mkState [] ∅ env.

(** ** What the generator reads

    Everything the methods read and do not compute: the attributes set
    by [ScriptHeaderGenerator.__init__], the values returned by the
    other modules of blade ([config], [console], [blade_util],
    [CcFlagsManager], [blade]) and by the interpreter. A configuration
    value that may be [None] or an empty string is a [string], empty
    when it is false; a [dict] key that may be missing is an [option]. *)
Record Config := mkConfig {
  build_dir : string;                 (* self.build_dir *)
  blade_path : string;                (* self.blade_path *)
  cc : string;                        (* build_platform.get_cc() *)
  cc_version : string;                (* build_platform.get_cc_version() *)
  profile : string;                   (* self.options.profile *)
  ccache_installed : bool;            (* build_environment.ccache_installed *)
  blade_root_dir : string;            (* build_environment.blade_root_dir *)
  (* ccflags_manager.get_warning_flags(): warnings, cxx_warnings, c_warnings *)
  warning_flags : list string * list string * list string;
  (* ccflags_manager.get_flags_except_warning(): cppflags, ldflags *)
  flags_except_warning : list string * list string;
  parallel_jobs_num : Z;              (* blade.parallel_jobs_num() *)
  sys_executable : string;            (* sys.executable *)
  getcwd : string;                    (* os.getcwd() *)
  colored : string -> string -> string;  (* console.colored *)
  load_scm : string * string;         (* blade_util.load_scm(build_dir) *)
  (* cc_config *)
  cflags : list string;
  cxxflags : list string;
  cppflags : list string;
  linkflags : list string;
  extra_incs : list string;
  securecc : string;
  header_inclusion_dependencies : bool;
  (* cc_library_config *)
  arflags : list string;
  (* link_config *)
  link_jobs : option Z;
  (* proto_library_config *)
  protoc : string;
  protoc_java : string;
  protobuf_incs : list string;
  protobuf_java_incs : list string;
  protoc_go_plugin : string;
  protobuf_go_path : string;
  protoc_go_subplugins : list string;
  (* go_config *)
  go_home : string;
  go : string;
  go_module_enabled : bool;
  go_module_relpath : string;
  (* java_config *)
  java_home : string;
  version : string;
  source_version : option string;
  target_version : option string;
  (* java_test_config, java_binary_config, scala_config *)
  jacoco_home : string;
  one_jar_boot_jar : string;
  scala_home : string;
  (* thrift_config *)
  thrift_incs : list string;
  thrift_gen_params : string;
  thrift : string;
}.

(** Modelled from the spec: [console.error_exit], of which only the call
    is in the source. Section 7 of the specification has a configuration
    error abort synthesis at once with its message: the run stops with
    [SystemExit] carrying the message. *)
Definition error_exit {A} (msg : string) : M A := raise (SystemExit msg).

(** Truth value of an [int] that may be [None]. *)
Definition truthy_int (o : option Z) : bool :=
  match o with
  | None => false
  | Some n => negb (Z.eqb n 0)
  end.

(** Truth value of a [list]. *)
Definition truthy_list {A} (l : list A) : bool :=
  match l with
  | [] => false
  | _ :: _ => true
  end.

(** ['-I ' + path for path in incs], joined. *)
Definition _incs_list_to_string (incs : list string) : string :=
  join " " (List.map (fun path => "-I " +:+ path) incs).

Definition protoc_import_path_option (incs : list string) : string :=
  join " " (List.map (fun inc => "-I=" +:+ inc) incs).

(** ** [ScriptHeaderGenerator] and [NinjaScriptHeaderGenerator] *)

Definition _add_rule (rule : string) : M unit := fun s =>
  Ok tt (mkState (rules_buf s ++ [rule +:+ nl]) (all_rule_names s) (environ s)).

Definition get_all_rule_names (s : state) : list string :=
  elements (all_rule_names s).

(** [self.__all_rule_names.add(name)] *)
Definition add_rule_name (name : string) : M unit := fun s =>
  Ok tt (mkState (rules_buf s) ({[ name ]} ∪ all_rule_names s) (environ s)).

(** Reading [self.rules_buf]. *)
Definition get_rules_buf : M (list string) := fun s => Ok (rules_buf s) s.

(** [os.environ[k] = v] *)
Definition setenv (k v : string) : M unit := fun s =>
  Ok tt (mkState (rules_buf s) (all_rule_names s) (<[ k := v ]> (environ s))).

(** [os.environ.get(k, d)] *)
Definition getenv (k d : string) : M string := fun s =>
  Ok (default d (environ s !! k)) s.

Section Generator.
Variable cfg : Config.

Definition generate_rule (name command : string)
      (description depfile : option string) (generator : bool)
      (pool : option string) (restat : bool)
      (rspfile rspfile_content deps : option string) : M unit :=
    add_rule_name name;;
    _add_rule ("rule " +:+ name);;
    _add_rule ("  command = " +:+ command);;
    when_str description (fun description =>
      _add_rule ("  description = " +:+ colored cfg description "dimpurple"));;
    when_str depfile (fun depfile =>
      _add_rule ("  depfile = " +:+ depfile));;
    when generator (_add_rule "  generator = 1");;
    when_str pool (fun pool =>
      _add_rule ("  pool = " +:+ pool));;
    when restat (_add_rule "  restat = 1");;
    when_str rspfile (fun rspfile =>
      _add_rule ("  rspfile = " +:+ rspfile));;
    when_str rspfile_content (fun rspfile_content =>
      _add_rule ("  rspfile_content = " +:+ rspfile_content));;
    when_str deps (fun deps =>
      _add_rule ("  deps = " +:+ deps)).

  (** The call with only a description, the other keywords at their
      defaults. *)
Definition generate_rule_desc (name command description : string) : M unit :=
    generate_rule name command (Some description) None false None false
      None None None.

Definition _toolchain_command (builder prefix suffix : string) : string :=
    let cmd := ["PYTHONPATH=" +:+ blade_path cfg +:+ ":$$PYTHONPATH"] in
    let cmd := if truthy prefix then cmd ++ [prefix] else cmd in
    let cmd := cmd ++ [sys_executable cfg +:+ " -m blade.toolchain " +:+ builder] in
    let cmd := if truthy suffix then cmd ++ [suffix] else cmd ++ ["${out} ${in}"] in
    join " " cmd.

Definition generate_file_header : M unit :=
    _add_rule ("# build.ninja generated by blade" +:+ nl +:+
               "ninja_required_version = 1.7" +:+ nl +:+
               "builddir = " +:+ build_dir cfg);;
    _add_rule ("pool heavy_pool" +:+ nl +:+
               "  depth = 1" +:+ nl).

Definition generate_common_rules : M unit :=
    generate_rule_desc "stamp" "touch ${out}" "STAMP ${out}";;
    generate_rule_desc "copy" "cp -f ${in} ${out}" "COPY ${in} ${out}".

Definition generate_cc_warning_vars : M unit :=
    let '(warnings, cxx_warnings, c_warnings) := warning_flags cfg in
    let c_warnings := c_warnings ++ warnings in
    let cxx_warnings := cxx_warnings ++ warnings in
    _add_rule ("c_warnings = " +:+ join " " c_warnings +:+ nl +:+
               "cxx_warnings = " +:+ join " " cxx_warnings +:+ nl).

Definition generate_cc_rules : M unit :=
    let build_with_ccache := ccache_installed cfg in
    cc ← getenv "CC" "gcc";
    cxx ← getenv "CXX" "g++";
    ld ← getenv "LD" "g++";
    '(cc, cxx) ←
      (if build_with_ccache then
         setenv "CCACHE_BASEDIR" (blade_root_dir cfg);;
         setenv "CCACHE_NOHASHDIR" "true";;
         mret ("ccache " +:+ cc, "ccache " +:+ cxx)
       else mret (cc, cxx));
    let cflags := cflags cfg in
    let cxxflags := cxxflags cfg in
    let '(cppflags0, ldflags0) := flags_except_warning cfg in
    let cppflags := cppflags cfg ++ cppflags0 in
    let arflags := join "" (arflags cfg) in
    let ldflags := linkflags cfg ++ ldflags0 in
    let includes := extra_incs cfg in
    let includes := includes ++ ["."; build_dir cfg] in
    let includes := join " " (List.map (fun inc => "-I" +:+ inc) includes) in
    generate_cc_warning_vars;;
    generate_rule "cc"
      (cc +:+ " -o ${out} -MMD -MF ${out}.d " +:+
       "-c -fPIC " +:+ join " " cflags +:+ " " +:+ join " " cppflags +:+
       " ${c_warnings} ${cppflags} " +:+
       includes +:+ " ${includes} ${in}")
      (Some "CC ${in}") (Some "${out}.d") false None false None None (Some "gcc");;
    generate_rule "cxx"
      (cxx +:+ " -o ${out} -MMD -MF ${out}.d " +:+
       "-c -fPIC " +:+ join " " cxxflags +:+ " " +:+ join " " cppflags +:+
       " ${cxx_warnings} ${cppflags} " +:+
       includes +:+ " ${includes} ${in}")
      (Some "CXX ${in}") (Some "${out}.d") false None false None None (Some "gcc");;
    when (header_inclusion_dependencies cfg)
      (let preprocess := fun a b c d =>
         a +:+ " -o /dev/null -E -H " +:+ b +:+ " " +:+ c +:+
         " -w ${cppflags} " +:+ d +:+ " ${includes} ${in} 2>${out}" in
       generate_rule_desc "cchdrs"
         (preprocess cc (join " " cflags) (join " " cppflags) includes)
         "CC HDRS ${in}";;
       generate_rule_desc "cxxhdrs"
         (preprocess cxx (join " " cxxflags) (join " " cppflags) includes)
         "CXX HDRS ${in}");;
    let securecc := securecc cfg +:+ " " +:+ cxx in
    _add_rule ("build __securecc_phony__ : phony" +:+ nl);;
    generate_rule_desc "securecccompile"
      (securecc +:+ " -o ${out} -c -fPIC " +:+
       join " " cxxflags +:+ " " +:+ join " " cppflags +:+
       " ${cxx_warnings} ${cppflags} " +:+ includes +:+ " ${includes} ${in}")
      "SECURECC ${in}";;
    generate_rule "securecc"
      (_toolchain_command "securecc_object" "" "")
      (Some "SECURECC ${in}") None false None true None None None;;
    generate_rule_desc "ar"
      ("rm -f $out; ar " +:+ arflags +:+ " $out $in")
      "AR ${out}";;
    let link_jobs := link_jobs cfg in
    pool ←
      (match link_jobs with
       | Some n =>
           if truthy_int link_jobs then
             let link_jobs := Z.min n (parallel_jobs_num cfg) in
             (* console.info(...) only logs *)
             let pool := "link_pool" in
             _add_rule ("pool " +:+ pool +:+ nl +:+
                        "  depth = " +:+ str_of_int link_jobs);;
             mret (Some pool)
           else mret None
       | None => mret None
       end);
    generate_rule "link"
      (ld +:+ " -o ${out} " +:+ join " " ldflags +:+
       " ${ldflags} ${in} ${extra_ldflags}")
      (Some "LINK ${out}") None false pool false None None None;;
    generate_rule "solink"
      (ld +:+ " -o ${out} -shared " +:+ join " " ldflags +:+
       " ${ldflags} ${in} ${extra_ldflags}")
      (Some "SHAREDLINK ${out}") None false pool false None None None;;
    generate_rule_desc "strip"
      "strip --strip-unneeded -o ${out} ${in}"
      "STRIP ${out}".

Definition generate_proto_rules : M unit :=
    let protoc := protoc cfg in
    let protoc_java :=
      if truthy (protoc_java cfg) then protoc_java cfg else protoc in
    let protobuf_incs := protoc_import_path_option (protobuf_incs cfg) in
    let protobuf_java_incs :=
      if truthy_list (protobuf_java_incs cfg)
      then protoc_import_path_option (protobuf_java_incs cfg)
      else protobuf_incs in
    _add_rule ("protocflags =" +:+ nl +:+
               "protoccpppluginflags =" +:+ nl +:+
               "protocjavapluginflags =" +:+ nl +:+
               "protocpythonpluginflags =" +:+ nl);;
    generate_rule_desc "proto"
      (protoc +:+ " --proto_path=. " +:+ protobuf_incs +:+ " -I=`dirname ${in}` " +:+
       "--cpp_out=" +:+ build_dir cfg +:+
       " ${protocflags} ${protoccpppluginflags} ${in}")
      "PROTOC ${in}";;
    generate_rule_desc "protojava"
      (protoc_java +:+ " --proto_path=. " +:+ protobuf_java_incs +:+
       " --java_out=" +:+ build_dir cfg +:+ "/`dirname ${in}` " +:+
       "${protocjavapluginflags} ${in}")
      "PROTOCJAVA ${in}";;
    generate_rule_desc "protopython"
      (protoc +:+ " --proto_path=. " +:+ protobuf_incs +:+ " -I=`dirname ${in}` " +:+
       "--python_out=" +:+ build_dir cfg +:+ " ${protocpythonpluginflags} ${in}")
      "PROTOCPYTHON ${in}";;
    generate_rule_desc "protodescriptors"
      (protoc +:+ " --proto_path=. " +:+ protobuf_incs +:+ " -I=`dirname ${first}` " +:+
       "--descriptor_set_out=${out} --include_imports " +:+
       "--include_source_info ${in}")
      "PROTODESCRIPTORS ${in}";;
    let protoc_go_plugin := protoc_go_plugin cfg in
    when (truthy protoc_go_plugin)
      (let go_home := go_home cfg in
       let go_module_enabled := go_module_enabled cfg in
       let go_module_relpath := go_module_relpath cfg in
       (if negb (truthy go_home)
        then error_exit
          "go_home is not configured in either BLADE_ROOT or BLADE_ROOT.local."
        else mret tt);;
       let outdir :=
         if go_module_enabled && negb (truthy go_module_relpath)
         then protobuf_go_path cfg
         else OsPath.join go_home ["src"] in
       let subplugins := protoc_go_subplugins cfg in
       let go_out :=
         if truthy_list subplugins
         then "plugins=" +:+ join "+" subplugins +:+ ":" +:+ outdir
         else outdir in
       generate_rule_desc "protogo"
         (protoc +:+ " --proto_path=. " +:+ protobuf_incs +:+ " -I=`dirname ${in}` " +:+
          "--plugin=protoc-gen-go=" +:+ protoc_go_plugin +:+
          " --go_out=" +:+ go_out +:+ " ${in}")
         "PROTOCGOLANG ${in}").

Definition generate_resource_rules : M unit :=
    let args := "${name} ${path} ${out} ${in}" in
    generate_rule_desc "resource_index"
      (_toolchain_command "resource_index" "" args)
      "RESOURCE INDEX ${out}";;
    generate_rule_desc "resource"
      ("xxd -i ${in} | " +:+
       "sed -e " +:+ dq +:+ "s/^unsigned char /const char RESOURCE_/g" +:+ dq +:+ " " +:+
       "-e " +:+ dq +:+ "s/^unsigned int /const unsigned int RESOURCE_/g" +:+ dq +:+
       " > ${out}")
      "RESOURCE ${in}".

Definition get_java_command (cmd : string) : string :=
    let java_home := java_home cfg in
    if truthy java_home then OsPath.join java_home ["bin"; cmd] else cmd.

Definition generate_javac_rules : M unit :=
    let javac := get_java_command "javac" in
    let jar := get_java_command "jar" in
    let cmd := [javac] in
    let version := version cfg in
    let source_version := default version (source_version cfg) in
    let target_version := default version (target_version cfg) in
    let cmd :=
      if truthy source_version then cmd ++ ["-source " +:+ source_version] else cmd in
    let cmd :=
      if truthy target_version then cmd ++ ["-target " +:+ target_version] else cmd in
    let cmd := cmd ++ [
      "-encoding ${source_encoding}";
      "-d ${classes_dir}";
      "-classpath ${classpath}";
      "${javacflags}";
      "${in}" ] in
    _add_rule ("source_encoding = UTF-8" +:+ nl +:+
               "classpath = ." +:+ nl +:+
               "javacflags =" +:+ nl);;
    generate_rule_desc "javac"
      ("rm -fr ${classes_dir} && mkdir -p ${classes_dir} && " +:+
       join " " cmd +:+ " && sleep 0.5 && " +:+
       jar +:+ " cf ${out} -C ${classes_dir} .")
      "JAVAC ${in}".

Definition generate_java_resource_rules : M unit :=
    generate_rule_desc "javaresource"
      (_toolchain_command "java_resource" "" "")
      "JAVA RESOURCE ${in}".

Definition generate_java_test_rules : M unit :=
    let jacoco_home := jacoco_home cfg in
    let prefix :=
      if truthy jacoco_home then
        let jacoco_agent := OsPath.join jacoco_home ["lib"; "jacocoagent.jar"] in
        "BLADE_JACOCOAGENT=" +:+ jacoco_agent
      else "" in
    _add_rule "javatargetundertestpkg = __targetundertestpkg__";;
    let args := "${mainclass} ${javatargetundertestpkg} ${out} ${in}" in
    generate_rule_desc "javatest"
      (_toolchain_command "java_test" prefix args)
      "JAVA TEST ${out}".

Definition generate_java_binary_rules : M unit :=
    let bootjar := one_jar_boot_jar cfg in
    let args := bootjar +:+ " ${mainclass} ${out} ${in}" in
    generate_rule_desc "onejar"
      (_toolchain_command "java_onejar" "" args)
      "ONE JAR ${out}";;
    generate_rule_desc "javabinary"
      (_toolchain_command "java_binary" "" "")
      "JAVA BIN ${out}".

Definition generate_scala_rules : M unit :=
    let scala_home := scala_home cfg in
    let '(scala, scalac) :=
      if truthy scala_home
      then (OsPath.join scala_home ["bin"; "scala"],
            OsPath.join scala_home ["bin"; "scalac"])
      else ("scala", "scalac") in
    let java := get_java_command "java" in
    _add_rule ("scalacflags = -nowarn" +:+ nl);;
    let cmd := [
      "JAVACMD=" +:+ java;
      scalac;
      "-encoding UTF8";
      "-d ${out}";
      "-classpath ${classpath}";
      "${scalacflags}";
      "${in}" ] in
    generate_rule_desc "scalac" (join " " cmd) "SCALAC ${out}";;
    let args := java +:+ " " +:+ scala +:+ " ${out} ${in}" in
    generate_rule_desc "scalatest"
      (_toolchain_command "scala_test" "" args)
      "SCALA TEST ${out}".

Definition generate_java_scala_rules : M unit :=
    generate_javac_rules;;
    generate_java_resource_rules;;
    let jar := get_java_command "jar" in
    let args := jar +:+ " ${out} ${in}" in
    generate_rule_desc "javajar"
      (_toolchain_command "java_jar" "" args)
      "JAVA JAR ${out}";;
    generate_java_test_rules;;
    generate_rule_desc "fatjar"
      (_toolchain_command "java_fatjar" "" "")
      "FAT JAR ${out}";;
    generate_java_binary_rules;;
    generate_scala_rules.

Definition generate_thrift_rules : M unit :=
    let incs := _incs_list_to_string (thrift_incs cfg) in
    let gen_params := thrift_gen_params cfg in
    let thrift := thrift cfg in
    let thrift :=
      if startswith "//" thrift
      then replace ":" "/" (replace "//" (build_dir cfg +:+ "/") thrift)
      else thrift in
    generate_rule_desc "thrift"
      (thrift +:+ " --gen " +:+ gen_params +:+ " " +:+
       "-I . " +:+ incs +:+ " -I `dirname ${in}` " +:+
       "-out " +:+ build_dir cfg +:+ "/`dirname ${in}` ${in}")
      "THRIFT ${in}".

Definition generate_python_rules : M unit :=
    _add_rule ("pythonbasedir = __pythonbasedir__" +:+ nl);;
    let args := "${pythonbasedir} ${out} ${in}" in
    generate_rule_desc "pythonlibrary"
      (_toolchain_command "python_library" "" args)
      "PYTHON LIBRARY ${out}";;
    let args := "${pythonbasedir} ${mainentry} ${out} ${in}" in
    generate_rule_desc "pythonbinary"
      (_toolchain_command "python_binary" "" args)
      "PYTHON BINARY ${out}".

  (** [os.path.relpath] inside a method: its [ValueError] stops the run. *)
Definition relpath (path start : string) : M string :=
    match OsPath.relpath (getcwd cfg) path start with
    | Some r => mret r
    | None => raise (ValueError "no path specified")
    end.

Definition generate_go_rules : M unit :=
    let go_home := go_home cfg in
    let go := go cfg in
    let go_module_enabled := go_module_enabled cfg in
    let go_module_relpath := go_module_relpath cfg in
    when (truthy go_home && truthy go)
      (let go_pool := "golang_pool" in
       _add_rule ("pool " +:+ go_pool +:+ nl +:+
                  "  depth = 1");;
       let go_path := OsPath.normpath (OsPath.abspath (getcwd cfg) go_home) in
       let out_relative := "" in
       '(prefix, out_relative) ←
         (if go_module_enabled then
            let prefix := go in
            if truthy go_module_relpath then
              relative_prefix ← relpath prefix go_module_relpath;
              let prefix :=
                "cd " +:+ go_module_relpath +:+ " && " +:+ relative_prefix in
              r ← relpath "./" go_module_relpath;
              let out_relative := OsPath.join r [""] in
              mret (prefix, out_relative)
            else mret (prefix, out_relative)
          else mret ("GOPATH=" +:+ go_path +:+ " " +:+ go, out_relative));
       generate_rule "gopackage"
         (prefix +:+ " install ${extra_goflags} ${package}")
         (Some "GOLANG PACKAGE ${package}") None false (Some go_pool) false
         None None None;;
       generate_rule "gocommand"
         (prefix +:+ " build -o " +:+ out_relative +:+
          "${out} ${extra_goflags} ${package}")
         (Some "GOLANG COMMAND ${package}") None false (Some go_pool) false
         None None None;;
       generate_rule "gotest"
         (prefix +:+ " test -c -o " +:+ out_relative +:+
          "${out} ${extra_goflags} ${package}")
         (Some "GOLANG TEST ${package}") None false (Some go_pool) false
         None None None).

Definition generate_shell_rules : M unit :=
    generate_rule_desc "shelltest"
      (_toolchain_command "shell_test" "" "")
      "SHELL TEST ${out}";;
    let args := "${out} ${in} ${testdata}" in
    generate_rule_desc "shelltestdata"
      (_toolchain_command "shell_testdata" "" args)
      "SHELL TEST DATA ${out}".

Definition generate_lex_yacc_rules : M unit :=
    generate_rule_desc "lex" "flex ${lexflags} -o ${out} ${in}" "LEX ${in}";;
    generate_rule_desc "yacc" "bison ${yaccflags} -o ${out} ${in}" "YACC ${in}".

Definition generate_package_rules : M unit :=
    let args := "${out} ${in} ${entries}" in
    generate_rule_desc "package"
      (_toolchain_command "package" "" args)
      "PACKAGE ${out}";;
    generate_rule_desc "package_tar"
      "tar -c -f ${out} ${tarflags} -C ${packageroot} ${entries}"
      "TAR ${out}";;
    generate_rule_desc "package_zip"
      ("cd ${packageroot} && zip -q temp_archive.zip ${entries} && " +:+
       "cd - && mv ${packageroot}/temp_archive.zip ${out}")
      "ZIP ${out}".

Definition generate_version_rules : M unit :=
    let '(revision, url) := load_scm cfg in
    let args := "${out} ${revision} ${url} ${profile} " +:+ dq +:+ "${compiler}" +:+ dq in
    generate_rule_desc "scm"
      (_toolchain_command "scm" "" args)
      "SCM ${out}";;
    let scm := OsPath.join (build_dir cfg) ["scm.cc"] in
    _add_rule ("build " +:+ scm +:+ ": scm" +:+ nl +:+
               "  revision = " +:+ revision +:+ nl +:+
               "  url = " +:+ url +:+ nl +:+
               "  profile = " +:+ profile cfg +:+ nl +:+
               "  compiler = " +:+ (cc cfg +:+ " " +:+ cc_version cfg) +:+ nl);;
    _add_rule ("build " +:+ (scm +:+ ".o") +:+ ": cxx " +:+ scm +:+ nl +:+
               "  cppflags = -w -O2" +:+ nl +:+
               "  cxx_warnings =" +:+ nl).

  (** [generate()] returns [self.rules_buf], the attribute itself. *)
Definition generate : M (list string) :=
    generate_file_header;;
    generate_common_rules;;
    generate_cc_rules;;
    generate_proto_rules;;
    generate_resource_rules;;
    generate_java_scala_rules;;
    generate_thrift_rules;;
    generate_python_rules;;
    generate_go_rules;;
    generate_shell_rules;;
    generate_lex_yacc_rules;;
    generate_package_rules;;
    generate_version_rules;;
    get_rules_buf.

End Generator.

(** ** Sample configurations *)

(** A configuration in which only what the statements below vary is
    left open: ccache, the link-job limit and the number of parallel
    jobs, and the go settings. Colours are off: [console.colored]
    returns its text. *)
Definition sample_config (ccache : bool) (jobs : option Z) (parallel : Z)
    (home binary : string) (module_enabled : bool) (module_relpath : string)
    : Config := {|
  build_dir := "build64_release";
  blade_path := "/opt/blade/src";
  cc := "gcc";
  cc_version := "9.4.0";
  profile := "release";
  ccache_installed := ccache;
  blade_root_dir := "/home/u/ws";
  warning_flags :=
    (["-Wall"], ["-Woverloaded-virtual"], ["-Werror-implicit-function-declaration"]);
  flags_except_warning := (["-m64"; "-O2"], ["-m64"]);
  parallel_jobs_num := parallel;
  sys_executable := "/usr/bin/python";
  getcwd := "/home/u/ws";
  colored := fun text _ => text;
  load_scm := ("r100", "https://svn.example.org/ws");
  cflags := ["-std=c99"];
  cxxflags := ["-std=c++11"];
  cppflags := ["-DNDEBUG"];
  linkflags := ["-Llib"];
  extra_incs := ["thirdparty"];
  securecc := "securecc";
  header_inclusion_dependencies := false;
  arflags := ["rcs"];
  link_jobs := jobs;
  protoc := "protoc";
  protoc_java := "";
  protobuf_incs := ["thirdparty"];
  protobuf_java_incs := [];
  protoc_go_plugin := "";
  protobuf_go_path := "";
  protoc_go_subplugins := [];
  go_home := home;
  go := binary;
  go_module_enabled := module_enabled;
  go_module_relpath := module_relpath;
  java_home := "";
  version := "1.8";
  source_version := None;
  target_version := None;
  jacoco_home := "";
  one_jar_boot_jar := "one-jar-boot.jar";
  scala_home := "";
  thrift_incs := [];
  thrift_gen_params := "cpp,java,py";
  thrift := "thrift";
|}.

(** No ccache, no link-job limit, no go. *)
Definition cfg0 : Config := sample_config false None 8 "" "" false "".

(** The go toolchain in module mode, the module in [src/mod] under the
    workspace. *)
Definition cfg_go : Config :=
  sample_config false None 8 "/home/u/go" "/usr/local/go/bin/go" true "src/mod".

(** A limit on the link jobs. *)
Definition cfg_link (jobs parallel : Z) : Config :=
  sample_config false (Some jobs) parallel "" "" false "".

(** ccache installed. *)
Definition cfg_ccache : Config := sample_config true None 8 "" "" false "".

(** ** The rest of the module *)

(** [ScriptHeaderGenerator._append_prefix_to_building_var] *)
Definition _append_prefix_to_building_var (prefix building_var : string)
    (condition : bool) : string :=
  if condition then prefix +:+ " " +:+ building_var else building_var.

(** [rules += more], on the list that [generate] returned: that list is
    [self.rules_buf] itself, so the buffer of the header generator
    grows with it. *)
Definition extend_rules_buf (more : list string) : M unit := fun s =>
  Ok tt (mkState (rules_buf s ++ more) (all_rule_names s) (environ s)).

(** [RulesGenerator.get_all_rule_names], the base class. *)
Definition base_get_all_rule_names : list string := [].

(** [ninja_script_header_generator.get_all_rule_names()] as a step. *)
Definition read_all_rule_names : M (list string) := fun s =>
  Ok (get_all_rule_names s) s.

(** The body of [NinjaRulesGenerator.generate_build_rules], on the
    header generator it has constructed. [gen_targets_rules] is what
    [blade.gen_targets_rules()] returns. It returns the rules and the
    list it stores in [self.__all_rule_names]. *)
Definition generate_build_rules_on (cfg : Config)
    (gen_targets_rules : list string) : M (list string * list string) :=
  generate cfg ≫= fun _ =>
  extend_rules_buf gen_targets_rules ≫= fun _ =>
  get_rules_buf ≫= fun rules =>
  read_all_rule_names ≫= fun names =>
  mret (rules, names).

(** [NinjaRulesGenerator.generate_build_rules]; [env] is the process
    environment at the call. *)
Definition generate_build_rules (cfg : Config) (gen_targets_rules : list string)
    (env : gmap string string) : result (list string * list string) :=
  generate_build_rules_on cfg gen_targets_rules (fresh_generator env).

(** [file.writelines(rules)] on a file opened with ['w']: the content
    of the file is the lines one after the other, nothing added. *)
Definition writelines (rules : list string) : string :=
  String.concat "" rules.

(** [RulesGenerator.generate_build_script] for the ninja generator: the
    rules it returns and the content of the script it has written. When
    the rules cannot be generated the file is not opened. *)
Definition generate_build_script (cfg : Config) (gen_targets_rules : list string)
    (env : gmap string string) : result (list string * string) :=
  match generate_build_rules cfg gen_targets_rules env with
  | Ok (rules, _) s => Ok (rules, writelines rules) s
  | Err e s => Err e s
  end.
(** ** Closed forms and readers used in the statements *)

(** The lines one optional keyword of [generate_rule] contributes. *)
Definition opt_line (pre : string) (v : option string) : list string :=
  match v with
  | Some (String c s) => [(pre +:+ String c s) +:+ nl]
  | _ => []
  end.

Definition flag_line (line : string) (b : bool) : list string :=
  if b then [line +:+ nl] else [].

(** The description goes through [console.colored]. *)
Definition desc_line (cfg : Config) (description : option string) : list string :=
  match description with
  | Some (String c s) =>
      [("  description = " +:+ colored cfg (String c s) "dimpurple") +:+ nl]
  | _ => []
  end.

(** The block of lines of one [generate_rule] call. *)
Definition rule_block (cfg : Config) (name command : string)
    (description depfile : option string) (generator : bool)
    (pool : option string) (restat : bool)
    (rspfile rspfile_content deps : option string) : list string :=
  [("rule " +:+ name) +:+ nl; ("  command = " +:+ command) +:+ nl]
  ++ desc_line cfg description
  ++ opt_line "  depfile = " depfile
  ++ flag_line "  generator = 1" generator
  ++ opt_line "  pool = " pool
  ++ flag_line "  restat = 1" restat
  ++ opt_line "  rspfile = " rspfile
  ++ opt_line "  rspfile_content = " rspfile_content
  ++ opt_line "  deps = " deps.

(** Appending lines and names to a state. *)
Definition extend (s : state) (lines : list string) (names : gset string) : state :=
  mkState (rules_buf s ++ lines) (names ∪ all_rule_names s) (environ s).

(** The prefix of the line of field [f] inside a rule block. *)
Definition field_prefix (f : string) : string := "  " +:+ f +:+ " = ".

(** Whether a block of lines has a line for field [f]. *)
Definition has_field (f : string) (blk : list string) : bool :=
  existsb (startswith (field_prefix f)) blk.

(** The indented lines at the head of a list: the fields of a block. *)
Fixpoint take_fields (lines : list string) : list string :=
  match lines with
  | l :: rest => if startswith "  " l then l :: take_fields rest else []
  | [] => []
  end.

(** The fields of the first block [rule name] among [lines]. *)
Fixpoint block_of (name : string) (lines : list string) : list string :=
  match lines with
  | l :: rest =>
      if String.eqb l (("rule " +:+ name) +:+ nl) then take_fields rest
      else block_of name rest
  | [] => []
  end.

(** The pool declarations among [lines]. *)
Definition pool_decls (lines : list string) : list string :=
  List.filter (startswith "pool ") lines.

(** Whether a string has a path separator in it. *)
Fixpoint contains_slash (s : string) : bool :=
  match s with
  | EmptyString => false
  | String c s' => Ascii.eqb c "/" || contains_slash s'
  end.

(** A path component: not empty, no separator. *)
Definition component (s : string) : Prop :=
  truthy s = true /\ contains_slash s = false.

(** The name in a pool declaration: what follows [pool ] up to the end
    of the line. *)
Fixpoint until_newline (s : string) : string :=
  match s with
  | EmptyString => EmptyString
  | String c s' =>
      if Ascii.eqb c (ascii_of_nat 10) then EmptyString
      else String c (until_newline s')
  end.

Definition pool_name (decl : string) : string :=
  match decl with
  | String _ (String _ (String _ (String _ (String _ rest)))) => until_newline rest
  | _ => EmptyString
  end.

(** The pool declarations of one run of [generate], in the order they
    are written: [heavy_pool], then [link_pool] when [link_jobs] is set
    and not zero, then [golang_pool] when a go home and a go binary are
    configured. *)
Definition heavy_pool_decl : string :=
  ("pool heavy_pool" +:+ nl +:+ "  depth = 1" +:+ nl) +:+ nl.

Definition link_pool_decl (cfg : Config) : list string :=
  match link_jobs cfg with
  | Some n =>
      if Z.eqb n 0 then []
      else [("pool link_pool" +:+ nl +:+ "  depth = " +:+
             str_of_int (Z.min n (parallel_jobs_num cfg))) +:+ nl]
  | None => []
  end.

Definition golang_pool_decl (cfg : Config) : list string :=
  if truthy (go_home cfg) && truthy (go cfg)
  then [("pool golang_pool" +:+ nl +:+ "  depth = 1") +:+ nl]
  else [].

Definition generate_pools (cfg : Config) : list string :=
  heavy_pool_decl :: link_pool_decl cfg ++ golang_pool_decl cfg.

(** A method that, however it ends, has added to the pool declarations
    of the buffer the list [pools], or a prefix of it when it stopped
    on an error. *)
Definition declares {A} (m : M A) (pools : list string) : Prop :=
  forall s,
    match m s with
    | Ok _ s' => pool_decls (rules_buf s') = pool_decls (rules_buf s) ++ pools
    | Err _ s' =>
        exists pre, pre `prefix_of` pools
          /\ pool_decls (rules_buf s') = pool_decls (rules_buf s) ++ pre
    end.

(** The environment variables [generate] reads. *)
Definition inputs : list string := ["CC"; "CXX"; "LD"].

(** Two states with the same buffer, the same rule names, and the same
    values for the variables that are read. *)
Definition same_inputs (s1 s2 : state) : Prop :=
  rules_buf s1 = rules_buf s2
  /\ all_rule_names s1 = all_rule_names s2
  /\ (forall k, In k inputs -> environ s1 !! k = environ s2 !! k).

Definition same_result {A} (r1 r2 : result A) : Prop :=
  match r1, r2 with
  | Ok a s1, Ok b s2 => a = b /\ same_inputs s1 s2
  | Err e1 s1, Err e2 s2 => e1 = e2 /\ same_inputs s1 s2
  | _, _ => False
  end.

(** A method whose outcome depends on the state only through the
    buffer, the rule names and the variables read, and which leaves
    these variables as they were. *)
Definition repeatable {A} (m : M A) : Prop :=
  (forall s1 s2, same_inputs s1 s2 -> same_result (m s1) (m s2))
  /\ (forall s k, In k inputs -> environ (final (m s)) !! k = environ s !! k).

(** ** Further readers *)

(** The line that opens the block of rule [name]. *)
Definition rule_header (name : string) : string := ("rule " +:+ name) +:+ nl.

(** The lines that open a rule block, in order. *)
Definition rule_decls (lines : list string) : list string :=
  List.filter (startswith "rule ") lines.

(** Whether a string ends with a newline. *)
Definition ends_with_newline (s : string) : bool :=
  endswith_char (ascii_of_nat 10) s.

(** What a method has added: [lines] to the buffer and [names] to the
    set of rule names, every line ending with a newline, and the names
    being those of the rule blocks among the lines. *)
Definition added (lines : list string) (names : gset string) : Prop :=
  Forall (fun l => ends_with_newline l = true) lines
  /\ (forall n, n ∈ names <-> In (rule_header n) lines).

(** A method that only adds to the buffer and to the names, however it
    ends. *)
Definition appends {A} (m : M A) : Prop :=
  forall s, exists lines names,
    rules_buf (final (m s)) = rules_buf s ++ lines
    /\ all_rule_names (final (m s)) = names ∪ all_rule_names s
    /\ added lines names.

(** A method that, however it ends, has added to the rule blocks of
    the buffer those of the names [names], in order, or the first of
    them when it stopped on an error. *)
Definition defines {A} (m : M A) (names : list string) : Prop :=
  forall s,
    match m s with
    | Ok _ s' =>
        rule_decls (rules_buf s') = rule_decls (rules_buf s) ++ List.map rule_header names
    | Err _ s' =>
        exists pre, pre `prefix_of` names
          /\ rule_decls (rules_buf s') = rule_decls (rules_buf s) ++ List.map rule_header pre
    end.

(** The rules of one run of [generate], in the order they are written. *)
Definition cc_rule_names (cfg : Config) : list string :=
  ["cc"; "cxx"]
  ++ (if header_inclusion_dependencies cfg then ["cchdrs"; "cxxhdrs"] else [])
  ++ ["securecccompile"; "securecc"; "ar"; "link"; "solink"; "strip"].

Definition proto_rule_names (cfg : Config) : list string :=
  ["proto"; "protojava"; "protopython"; "protodescriptors"]
  ++ (if truthy (protoc_go_plugin cfg) then ["protogo"] else []).

Definition java_scala_rule_names : list string :=
  ["javac"; "javaresource"; "javajar"; "javatest"; "fatjar"; "onejar";
   "javabinary"; "scalac"; "scalatest"].

Definition go_rule_names (cfg : Config) : list string :=
  if truthy (go_home cfg) && truthy (go cfg)
  then ["gopackage"; "gocommand"; "gotest"] else [].

Definition generate_rule_names (cfg : Config) : list string :=
  ["stamp"; "copy"]
  ++ cc_rule_names cfg
  ++ proto_rule_names cfg
  ++ ["resource_index"; "resource"]
  ++ java_scala_rule_names
  ++ ["thrift"; "pythonlibrary"; "pythonbinary"]
  ++ go_rule_names cfg
  ++ ["shelltest"; "shelltestdata"; "lex"; "yacc";
      "package"; "package_tar"; "package_zip"; "scm"].

(** The one configuration error of [generate]: a go plugin for protoc
    without a go home. *)
Definition go_home_missing (cfg : Config) : bool :=
  truthy (protoc_go_plugin cfg) && negb (truthy (go_home cfg)).

(** A method that never stops on an error. *)
Definition succeeds {A} (m : M A) : Prop :=
  forall s, exists a s', m s = Ok a s'.

(** The position of the first line that satisfies [sel], if any. *)
Fixpoint first_index (sel : string -> bool) (lines : list string) : option nat :=
  match lines with
  | [] => None
  | l :: rest =>
      if sel l then Some 0
      else match first_index sel rest with
           | Some i => Some (S i)
           | None => None
           end
  end.

(** Whether a line satisfying [p] comes, and comes before every line
    satisfying [q]. *)
Definition comes_before (p q : string -> bool) (lines : list string) : bool :=
  match first_index p lines, first_index q lines with
  | Some i, Some j => Nat.ltb i j
  | Some _, None => true
  | None, _ => false
  end.

(** Whether a string has the character [c] in it. *)
Fixpoint contains_char (c : ascii) (s : string) : bool :=
  match s with
  | EmptyString => false
  | String a s' => Ascii.eqb a c || contains_char c s'
  end.

(** The go toolchain in workspace mode, the go home given relative to
    the workspace. *)
Definition cfg_gopath : Config :=
  sample_config false None 8 "third_party/go" "go" false "".

(** The thrift compiler given as a blade target. *)
Definition with_thrift (cfg : Config) (tool : string) : Config := {|
  build_dir := build_dir cfg;
  blade_path := blade_path cfg;
  cc := cc cfg;
  cc_version := cc_version cfg;
  profile := profile cfg;
  ccache_installed := ccache_installed cfg;
  blade_root_dir := blade_root_dir cfg;
  warning_flags := warning_flags cfg;
  flags_except_warning := flags_except_warning cfg;
  parallel_jobs_num := parallel_jobs_num cfg;
  sys_executable := sys_executable cfg;
  getcwd := getcwd cfg;
  colored := colored cfg;
  load_scm := load_scm cfg;
  cflags := cflags cfg;
  cxxflags := cxxflags cfg;
  cppflags := cppflags cfg;
  linkflags := linkflags cfg;
  extra_incs := extra_incs cfg;
  securecc := securecc cfg;
  header_inclusion_dependencies := header_inclusion_dependencies cfg;
  arflags := arflags cfg;
  link_jobs := link_jobs cfg;
  protoc := protoc cfg;
  protoc_java := protoc_java cfg;
  protobuf_incs := protobuf_incs cfg;
  protobuf_java_incs := protobuf_java_incs cfg;
  protoc_go_plugin := protoc_go_plugin cfg;
  protobuf_go_path := protobuf_go_path cfg;
  protoc_go_subplugins := protoc_go_subplugins cfg;
  go_home := go_home cfg;
  go := go cfg;
  go_module_enabled := go_module_enabled cfg;
  go_module_relpath := go_module_relpath cfg;
  java_home := java_home cfg;
  version := version cfg;
  source_version := source_version cfg;
  target_version := target_version cfg;
  jacoco_home := jacoco_home cfg;
  one_jar_boot_jar := one_jar_boot_jar cfg;
  scala_home := scala_home cfg;
  thrift_incs := thrift_incs cfg;
  thrift_gen_params := thrift_gen_params cfg;
  thrift := tool;
|}.

Definition cfg_thrift : Config := with_thrift cfg0 "//thirdparty/thrift:thrift".

(** The text [generate_file_header] puts at the head of the script. *)
Definition file_header_text (cfg : Config) : string :=
  "# build.ninja generated by blade" +:+ nl +:+
  "ninja_required_version = 1.7" +:+ nl +:+
  "builddir = " +:+ build_dir cfg +:+ nl +:+
  "pool heavy_pool" +:+ nl +:+
  "  depth = 1" +:+ nl +:+ nl.

(** The number of slashes [normpath] keeps at the head of a path:
    [initial_slashes]. *)
Definition lead (path : string) : nat :=
  if startswith "/" path then
    if startswith "//" path && negb (startswith "///" path) then 2 else 1
  else 0.

Definition slashes (k : nat) : string :=
  match k with
  | 0 => ""
  | 1 => "/"
  | _ => "//"
  end.

(** A component of a normalised absolute path: a name, neither [.] nor
    [..]. *)
Definition proper (x : string) : Prop :=
  component x /\ x <> "." /\ x <> "..".

(** What [abspath] normalises: the path itself when it is absolute,
    the path joined to the current directory otherwise. *)
Definition located (cwd path : string) : string :=
  if OsPath.isabs path then path else OsPath.join cwd [path].

(** The strings that follow the first in [sep.join]. *)
Fixpoint tail_join (l : list string) : string :=
  match l with
  | [] => ""
  | b :: l' => "/" +:+ b +:+ tail_join l'
  end.

(** An absolute path in normal form: the root and the names below it. *)
Definition rooted (k : nat) (cs : list string) : string :=
  slashes k +:+ Py.join "/" cs.

(** The two build statements of the version file, as
    [generate_version_rules] writes them. *)
Definition version_file (cfg : Config) : string :=
  OsPath.join (build_dir cfg) ["scm.cc"].

Definition version_statement (cfg : Config) : string :=
  ("build " +:+ version_file cfg +:+ ": scm" +:+ nl +:+
   "  revision = " +:+ fst (load_scm cfg) +:+ nl +:+
   "  url = " +:+ snd (load_scm cfg) +:+ nl +:+
   "  profile = " +:+ profile cfg +:+ nl +:+
   "  compiler = " +:+ (cc cfg +:+ " " +:+ cc_version cfg) +:+ nl) +:+ nl.

Definition version_object_statement (cfg : Config) : string :=
  ("build " +:+ (version_file cfg +:+ ".o") +:+ ": cxx " +:+ version_file cfg +:+ nl +:+
   "  cppflags = -w -O2" +:+ nl +:+
   "  cxx_warnings =" +:+ nl) +:+ nl.

(** A method that, however it ends, leaves the process environment as
    it found it. *)
Definition keeps_environ {A} (m : M A) : Prop :=
  forall s, environ (final (m s)) = environ s.

(** The environment after the two assignments made for ccache. *)
Definition ccache_environ (cfg : Config) (env : gmap string string)
    : gmap string string :=
  if ccache_installed cfg then
    <[ "CCACHE_NOHASHDIR" := "true" ]>
      (<[ "CCACHE_BASEDIR" := blade_root_dir cfg ]> env)
  else env.
(** ** Running the monad *)

Lemma run_bind {A B} (m : M A) (f : A -> M B) s :
  (m ≫= f) s = match m s with Ok a s' => f a s' | Err e s' => Err e s' end.
Proof. reflexivity. Qed.

Lemma run_bind_err {A B} (m : M A) (f : A -> M B) s e s' :
  m s = Err e s' -> (m ≫= f) s = Err e s'.
Proof. intros H. rewrite run_bind, H. reflexivity. Qed.

Lemma run_bind_ok {A B} (m : M A) (f : A -> M B) s a s' :
  m s = Ok a s' -> (m ≫= f) s = f a s'.
Proof. intros H. rewrite run_bind, H. reflexivity. Qed.

Lemma extend_extend s l1 n1 l2 n2 :
  extend (extend s l1 n1) l2 n2 = extend s (l1 ++ l2) (n2 ∪ n1).
Proof.
  unfold extend; simpl. f_equal.
  - symmetry; apply app_assoc.
  - apply (assoc_L (∪)).
Qed.

Lemma extend_nil s : extend s [] ∅ = s.
Proof.
  destruct s; unfold extend; simpl. f_equal.
  - apply app_nil_r.
  - apply (left_id_L ∅ (∪)).
Qed.

Lemma run_add_rule rule s :
  _add_rule rule s = Ok tt (extend s [rule +:+ nl] ∅).
Proof.
  unfold _add_rule, extend. do 2 f_equal. symmetry. apply (left_id_L ∅ (∪)).
Qed.

Lemma run_when_str pre v s :
  when_str v (fun x => _add_rule (pre +:+ x)) s = Ok tt (extend s (opt_line pre v) ∅).
Proof.
  destruct v as [[|c x]|]; simpl; rewrite ?run_add_rule, ?extend_nil; reflexivity.
Qed.

Lemma run_when_desc cfg description s :
  when_str description
    (fun d => _add_rule ("  description = " +:+ colored cfg d "dimpurple")) s
  = Ok tt (extend s (desc_line cfg description) ∅).
Proof.
  destruct description as [[|c x]|]; simpl; rewrite ?run_add_rule, ?extend_nil; reflexivity.
Qed.

Lemma run_when_flag line b s :
  when b (_add_rule line) s = Ok tt (extend s (flag_line line b) ∅).
Proof.
  destruct b; simpl; rewrite ?run_add_rule, ?extend_nil; reflexivity.
Qed.

Lemma run_generate_rule cfg name command description depfile generator pool
    restat rspfile rspfile_content deps s :
  generate_rule cfg name command description depfile generator pool restat
    rspfile rspfile_content deps s
  = Ok tt (extend s
      (rule_block cfg name command description depfile generator pool restat
         rspfile rspfile_content deps) {[ name ]}).
Proof.
  unfold generate_rule.
  rewrite run_bind. unfold add_rule_name at 1. cbv beta iota.
  erewrite run_bind_ok by apply run_add_rule.
  erewrite run_bind_ok by apply run_add_rule.
  erewrite run_bind_ok by apply run_when_desc.
  erewrite run_bind_ok by apply run_when_str.
  erewrite run_bind_ok by apply run_when_flag.
  erewrite run_bind_ok by apply run_when_str.
  erewrite run_bind_ok by apply run_when_flag.
  erewrite run_bind_ok by apply run_when_str.
  erewrite run_bind_ok by apply run_when_str.
  rewrite run_when_str.
  f_equal. unfold rule_block.
  rewrite !extend_extend. unfold extend; simpl. f_equal.
  rewrite !(left_id_L ∅ (∪)). reflexivity.
Qed.

(** Symbolic execution of a method: each statement is run in turn and
    its effect recorded as an [extend] of the state. *)
Lemma run_ret {A} (a : A) s : (mret a : M A) s = Ok a s.
Proof. reflexivity. Qed.

Lemma run_getenv k d s : getenv k d s = Ok (default d (environ s !! k)) s.
Proof. reflexivity. Qed.

Lemma run_setenv k v s :
  setenv k v s = Ok tt (mkState (rules_buf s) (all_rule_names s) (<[ k := v ]> (environ s))).
Proof. reflexivity. Qed.

Lemma run_generate_rule_desc cfg name command description s :
  generate_rule_desc cfg name command description s
  = Ok tt (extend s
      (rule_block cfg name command (Some description) None false None false
         None None None) {[ name ]}).
Proof. unfold generate_rule_desc. rewrite run_generate_rule. reflexivity. Qed.

Ltac run_head :=
  cbv beta iota zeta;
  lazymatch goal with
  | |- mbind _ _ _ = _ => erewrite run_bind_ok by run_head; run_head
  | |- generate_rule _ _ _ _ _ _ _ _ _ _ _ _ = _ => rewrite run_generate_rule; reflexivity
  | |- generate_rule_desc _ _ _ _ _ = _ => rewrite run_generate_rule_desc; reflexivity
  | |- _add_rule _ _ = _ => rewrite run_add_rule; reflexivity
  | |- mret _ _ = _ => apply run_ret
  | |- getenv _ _ _ = _ => apply run_getenv
  | |- setenv _ _ _ = _ => apply run_setenv
  | |- when true _ _ = _ => unfold when at 1; run_head
  | |- when false _ _ = _ => unfold when at 1; run_head
  | |- _ => reflexivity
  end.


(** The same for a method that stops with an error. *)
Ltac run_err :=
  cbv beta iota zeta;
  lazymatch goal with
  | |- mbind _ _ _ = _ =>
      first [ erewrite run_bind_ok by run_head; run_err
            | erewrite run_bind_err by run_err; reflexivity ]
  | |- when true _ _ = _ => unfold when at 1; run_err
  | |- _ => reflexivity
  end.

Ltac run_to_lines :=
  eexists; eexists; split; [run_head|];
  split; [rewrite ?extend_extend; unfold extend;
          cbn [rules_buf all_rule_names environ]; reflexivity|].

Ltac expand_blocks :=
  unfold rule_block, desc_line, opt_line, flag_line; cbn [app].
Lemma startswith_append p x : startswith p (p +:+ x) = true.
Proof.
  induction p as [|a p IH]; simpl; [reflexivity|].
  rewrite Ascii.eqb_refl. exact IH.
Qed.

Lemma append_assoc (x y z : string) : (x +:+ y) +:+ z = x +:+ y +:+ z.
Proof. induction x as [|a x IH]; simpl; [reflexivity|]. rewrite IH. reflexivity. Qed.

Lemma has_opt_line_same pre v :
  existsb (startswith pre) (opt_line pre v) = truthy_opt v.
Proof.
  destruct v as [[|c x]|]; simpl; try reflexivity.
  rewrite append_assoc, startswith_append. reflexivity.
Qed.

Lemma has_opt_line_other pre pre' v :
  (forall x, startswith pre (pre' +:+ x) = false) ->
  existsb (startswith pre) (opt_line pre' v) = false.
Proof.
  intros H. destruct v as [[|c x]|]; simpl; try reflexivity.
  rewrite append_assoc, H. reflexivity.
Qed.

Lemma has_desc_line_other cfg pre d :
  (forall x, startswith pre ("  description = " +:+ x) = false) ->
  existsb (startswith pre) (desc_line cfg d) = false.
Proof.
  intros H. destruct d as [[|c x]|]; try reflexivity.
  unfold desc_line, existsb. rewrite append_assoc, H. reflexivity.
Qed.

Lemma has_desc_line_same cfg d :
  existsb (startswith "  description = ") (desc_line cfg d) = truthy_opt d.
Proof. destruct d as [[|c x]|]; reflexivity. Qed.

Ltac field_facts :=
  unfold has_field, rule_block, field_prefix;
  rewrite !existsb_app;
  rewrite ?has_opt_line_same, ?has_desc_line_same;
  rewrite ?has_opt_line_other by (intros; reflexivity);
  rewrite ?has_desc_line_other by (intros; reflexivity);
  repeat match goal with |- context [flag_line _ ?b] => is_var b; destruct b end;
  simpl; rewrite ?orb_false_r; reflexivity.

Lemma append_nl_nonempty x : x +:+ nl <> EmptyString.
Proof. destruct x; discriminate. Qed.

(** No line of [blk] is the bare prefix [pre] followed by the newline. *)
Ltac no_empty_value :=
  rewrite !in_app_iff; intros H;
  repeat (destruct H as [H|H]);
  match type of H with
  | In _ (opt_line _ ?v) =>
      destruct v as [[|c x]|]; simpl in H; try tauto;
      destruct H as [H|[]];
      first [ discriminate H
            | injection H as _ H; exact (append_nl_nonempty _ H) ]
  | In _ (desc_line _ ?v) =>
      destruct v as [[|c x]|]; simpl in H; try tauto;
      destruct H as [H|[]]; discriminate H
  | In _ (flag_line _ ?b) =>
      destruct b; simpl in H; try tauto;
      destruct H as [H|[]]; discriminate H
  end.

(** ** Rule blocks *)

(** C7. A rule block always starts with its [rule] and [command] lines;
    each of the optional fields has a line in the block exactly when a
    value that is true (a non-empty string, or [True] for the two
    flags) was passed for it, and no line of a string field has an
    empty right-hand side. *)
Theorem generate_rule_optional_fields cfg name command description depfile
    generator pool restat rspfile rspfile_content deps s :
  exists blk rest,
    generate_rule cfg name command description depfile generator pool restat
      rspfile rspfile_content deps s = Ok tt (extend s blk {[ name ]})
    /\ blk = (("rule " +:+ name) +:+ nl) :: (("  command = " +:+ command) +:+ nl) :: rest
    /\ has_field "description" blk = truthy_opt description
    /\ has_field "depfile" blk = truthy_opt depfile
    /\ has_field "generator" blk = generator
    /\ has_field "pool" blk = truthy_opt pool
    /\ has_field "restat" blk = restat
    /\ has_field "rspfile" blk = truthy_opt rspfile
    /\ has_field "rspfile_content" blk = truthy_opt rspfile_content
    /\ has_field "deps" blk = truthy_opt deps
    /\ Forall (fun f => ~ In (field_prefix f +:+ nl) rest)
         ["depfile"; "pool"; "rspfile"; "rspfile_content"; "deps"].
Proof.
  eexists. eexists. split; [apply run_generate_rule|].
  split; [reflexivity|].
  repeat (split; [field_facts|]).
  repeat (apply Forall_cons; split); [..|apply Forall_nil; exact I].
  all: unfold field_prefix; no_empty_value.
Qed.

Lemma startswith_cancel p q r : startswith (p +:+ q) (p +:+ r) = startswith q r.
Proof.
  induction p as [|a p IH]; simpl; [reflexivity|].
  rewrite Ascii.eqb_refl. exact IH.
Qed.

(** ** The delegated command *)

(** C9. The command of a delegated step is the [PYTHONPATH] prefix built
    from the blade path, then the step's own environment prefix when
    one is given, then the call of the helper module with the step
    name, then the step's arguments, or [${out} ${in}] when none are
    given. *)
Theorem toolchain_command_shape cfg builder prefix suffix :
  let pythonpath := "PYTHONPATH=" +:+ blade_path cfg +:+ ":$$PYTHONPATH" in
  let helper := sys_executable cfg +:+ " -m blade.toolchain " +:+ builder in
  _toolchain_command cfg builder prefix suffix
  = pythonpath +:+
    (if truthy prefix then " " +:+ prefix else "") +:+
    " " +:+ helper +:+
    " " +:+ (if truthy suffix then suffix else "${out} ${in}")
  /\ startswith (pythonpath +:+ " ") (_toolchain_command cfg builder prefix suffix) = true.
Proof.
  intros pythonpath helper.
  assert (E : _toolchain_command cfg builder prefix suffix
    = pythonpath +:+
      (if truthy prefix then " " +:+ prefix else "") +:+
      " " +:+ helper +:+
      " " +:+ (if truthy suffix then suffix else "${out} ${in}")).
  { unfold _toolchain_command. fold pythonpath. fold helper.
    destruct prefix, suffix; reflexivity. }
  split; [exact E|].
  rewrite E, startswith_cancel. destruct prefix; reflexivity.
Qed.

(** ** The set of rule names *)

(** C3, as the code has it. [generate_rule] never fails: it adds the
    name to the set of rule names and appends the block to the buffer,
    whether or not the name is already there. The set holds each name
    once: for a name already in it the set is unchanged, for a new
    name it grows by one, and the list handed to the caller has no
    duplicates. *)
Theorem generate_rule_registers cfg name command description depfile
    generator pool restat rspfile rspfile_content deps s :
  exists s',
    generate_rule cfg name command description depfile generator pool restat
      rspfile rspfile_content deps s = Ok tt s'
    /\ all_rule_names s' = {[ name ]} ∪ all_rule_names s
    /\ (((name ∈ all_rule_names s) /\ all_rule_names s' = all_rule_names s)
        \/ ((name ∉ all_rule_names s)
            /\ size (all_rule_names s') = S (size (all_rule_names s))))
    /\ NoDup (get_all_rule_names s')
    /\ rules_buf s' = rules_buf s ++
         rule_block cfg name command description depfile generator pool
           restat rspfile rspfile_content deps.
Proof.
  eexists. split; [rewrite run_generate_rule; reflexivity|].
  unfold extend, get_all_rule_names; cbn [all_rule_names rules_buf].
  split; [reflexivity|]. split; [|split; [apply NoDup_elements|reflexivity]].
  destruct (decide (name ∈ all_rule_names s)) as [Hin|Hnin].
  - left. split; [exact Hin|].
    apply subseteq_union_1_L, singleton_subseteq_l, Hin.
  - right. split; [exact Hnin|].
    rewrite size_union by (apply disjoint_singleton_l, Hnin).
    rewrite size_singleton. reflexivity.
Qed.

(** C3, the claim refuted: registering [stamp] a second time on the
    same generator returns normally and leaves two [rule stamp] blocks
    in the buffer. *)
Lemma duplicate_rule_name_accepted :
  let add_stamp :=
    generate_rule_desc cfg0 "stamp" "touch ${out}" "STAMP ${out}" in
  exists s1 s2,
    add_stamp (fresh_generator ∅) = Ok tt s1
    /\ ("stamp" ∈ all_rule_names s1)
    /\ add_stamp s1 = Ok tt s2
    /\ rules_buf s2 =
         [ "rule stamp" +:+ nl;
           "  command = touch ${out}" +:+ nl;
           "  description = STAMP ${out}" +:+ nl;
           "rule stamp" +:+ nl;
           "  command = touch ${out}" +:+ nl;
           "  description = STAMP ${out}" +:+ nl ].
Proof.
  intros add_stamp. unfold add_stamp.
  eexists. eexists.
  split; [rewrite run_generate_rule_desc; reflexivity|].
  split; [apply elem_of_union_l, elem_of_singleton_2; reflexivity|].
  split; [rewrite run_generate_rule_desc; reflexivity|].
  reflexivity.
Qed.

(** ** The C and C++ rules *)

Ltac cc_cases cfg :=
  unfold generate_cc_rules, generate_cc_warning_vars;
  destruct (warning_flags cfg) as [[w cxxw] cw];
  destruct (flags_except_warning cfg) as [cpp0 ld0];
  destruct (ccache_installed cfg), (header_inclusion_dependencies cfg);
  destruct (link_jobs cfg) as [n|]; unfold truthy_int;
  try destruct (Z.eqb n 0); cbv [negb].

(** C4. When [link_jobs] is set and not zero, one pool [link_pool] is
    declared, of depth the smaller of [link_jobs] and the number of
    parallel jobs, and the [link] and [solink] rules carry
    [pool = link_pool]; otherwise no pool is declared by the C and C++
    rules and the two rules have no [pool] line. *)
Theorem link_pool_depth_and_binding cfg s :
  exists s' lines,
    generate_cc_rules cfg s = Ok tt s'
    /\ rules_buf s' = rules_buf s ++ lines
    /\ let bound n :=
         pool_decls lines =
           [("pool link_pool" +:+ nl +:+ "  depth = " +:+
             str_of_int (Z.min n (parallel_jobs_num cfg))) +:+ nl]
         /\ In ("  pool = link_pool" +:+ nl) (block_of "link" lines)
         /\ In ("  pool = link_pool" +:+ nl) (block_of "solink" lines) in
       let unbound :=
         pool_decls lines = []
         /\ has_field "pool" (block_of "link" lines) = false
         /\ has_field "pool" (block_of "solink" lines) = false in
       match link_jobs cfg with
       | Some n => if Z.eqb n 0 then unbound else bound n
       | None => unbound
       end.
Proof.
  cc_cases cfg.
  all: run_to_lines.
  all: expand_blocks.
  all: repeat split; try reflexivity.
  all: simpl; tauto.
Qed.

(** Four link jobs with eight parallel jobs give depth 4, with two
    parallel jobs depth 2. *)
Example link_pool_depth_4_of_8 :
  pool_decls (rules_buf (final (generate_cc_rules (cfg_link 4 8) (fresh_generator ∅))))
  = [("pool link_pool" +:+ nl +:+ "  depth = 4") +:+ nl].
Proof. vm_compute. reflexivity. Qed.

Example link_pool_depth_4_of_2 :
  pool_decls (rules_buf (final (generate_cc_rules (cfg_link 4 2) (fresh_generator ∅))))
  = [("pool link_pool" +:+ nl +:+ "  depth = 2") +:+ nl].
Proof. vm_compute. reflexivity. Qed.

(** C2, as the code has it. No configuration item turns dependency
    files off: whatever the configuration, the [cc] and [cxx] rules
    have [depfile = ${out}.d] and [deps = gcc]. The other compile
    rules, [cchdrs], [cxxhdrs] and [securecccompile], have neither
    field. *)
Theorem cc_rules_depfile_always cfg s :
  exists s' lines,
    generate_cc_rules cfg s = Ok tt s'
    /\ rules_buf s' = rules_buf s ++ lines
    /\ Forall (fun name =>
         In ("  depfile = ${out}.d" +:+ nl) (block_of name lines)
         /\ In ("  deps = gcc" +:+ nl) (block_of name lines))
       ["cc"; "cxx"]
    /\ Forall (fun name =>
         has_field "depfile" (block_of name lines) = false
         /\ has_field "deps" (block_of name lines) = false)
       ["cchdrs"; "cxxhdrs"; "securecccompile"].
Proof.
  cc_cases cfg.
  all: run_to_lines.
  all: expand_blocks.
  all: split; repeat (apply Forall_cons; split); try (apply Forall_nil; exact I).
  all: try reflexivity.
  all: simpl; tauto.
Qed.

(** C2, the claim refuted: with header inclusion tracking off and
    nothing else in the configuration that could stand for dependency
    tracking, the [cc] rule still has its [depfile] and [deps] lines. *)
Lemma cc_rule_keeps_depfile :
  header_inclusion_dependencies cfg0 = false
  /\ block_of "cc"
       (rules_buf (final (generate_cc_rules cfg0 (fresh_generator ∅))))
     = [ "  command = gcc -o ${out} -MMD -MF ${out}.d -c -fPIC -std=c99 -DNDEBUG -m64 -O2 ${c_warnings} ${cppflags} -Ithirdparty -I. -Ibuild64_release ${includes} ${in}" +:+ nl;
         "  description = CC ${in}" +:+ nl;
         "  depfile = ${out}.d" +:+ nl;
         "  deps = gcc" +:+ nl ].
Proof. split; [reflexivity|]. vm_compute. reflexivity. Qed.

(** C10. With ccache installed, [generate_cc_rules] sets
    [CCACHE_BASEDIR] to the workspace root and [CCACHE_NOHASHDIR] to
    [true] in the process environment, and the commands of the [cc]
    and [cxx] rules start with [ccache] followed by the compiler;
    without it the environment is left as it was and the commands
    start with the compiler. *)
Theorem cc_rules_ccache_environment cfg s :
  exists s' lines,
    generate_cc_rules cfg s = Ok tt s'
    /\ rules_buf s' = rules_buf s ++ lines
    /\ let CC := default "gcc" (environ s !! "CC") in
       let CXX := default "g++" (environ s !! "CXX") in
       let command_of name := nth 0 (block_of name lines) "" in
       if ccache_installed cfg then
         environ s' =
           <[ "CCACHE_NOHASHDIR" := "true" ]>
             (<[ "CCACHE_BASEDIR" := blade_root_dir cfg ]> (environ s))
         /\ (exists rest, command_of "cc" = "  command = ccache " +:+ CC +:+ " " +:+ rest)
         /\ (exists rest, command_of "cxx" = "  command = ccache " +:+ CXX +:+ " " +:+ rest)
       else
         environ s' = environ s
         /\ (exists rest, command_of "cc" = "  command = " +:+ CC +:+ " " +:+ rest)
         /\ (exists rest, command_of "cxx" = "  command = " +:+ CXX +:+ " " +:+ rest).
Proof.
  cc_cases cfg.
  all: run_to_lines.
  all: expand_blocks.
  all: split; [reflexivity|].
  all: split; eexists; simpl; rewrite !append_assoc; simpl; reflexivity.
Qed.

(** ** The protocol buffer rules *)

Ltac not_a_name :=
  rewrite ?elem_of_union, ?elem_of_singleton, ?elem_of_empty;
  split; [intros H; repeat (destruct H as [H|H]); try discriminate H; try exact H; try (destruct H)
         | tauto].

(** C8. Without a go plugin the protocol buffer rules are generated and
    none of them is [protogo]. With a go plugin and no [go_home] the
    run stops on [console.error_exit] with its message, after the four
    rules that come before: no [protogo] block has been written and
    the name is not registered. With both, [protogo] is generated. *)
Theorem proto_rules_go_plugin cfg s :
  exists r lines,
    generate_proto_rules cfg s = r
    /\ rules_buf (final r) = rules_buf s ++ lines
    /\ let no_protogo :=
         ~ In ("rule protogo" +:+ nl) lines
         /\ (("protogo" ∈ all_rule_names (final r)) <-> ("protogo" ∈ all_rule_names s)) in
       if truthy (protoc_go_plugin cfg) then
         if truthy (go_home cfg) then
           r = Ok tt (final r)
           /\ In ("rule protogo" +:+ nl) lines
           /\ ("protogo" ∈ all_rule_names (final r))
         else
           r = Err (SystemExit
                 "go_home is not configured in either BLADE_ROOT or BLADE_ROOT.local.")
                 (final r)
           /\ no_protogo
       else r = Ok tt (final r) /\ no_protogo.
Proof.
  unfold generate_proto_rules.
  destruct (protoc_go_plugin cfg) as [|c1 plugin]; cbn [truthy].
  - eexists. eexists. split; [run_head|].
    split; [rewrite ?extend_extend; unfold extend; cbn [final rules_buf]; reflexivity|].
    cbn [final]. split; [reflexivity|]. expand_blocks. split.
    + simpl. intros H. repeat (destruct H as [H|H]; [discriminate H|]). exact H.
    + rewrite ?extend_extend. unfold extend. cbn [all_rule_names]. not_a_name.
  - destruct (go_home cfg) as [|c2 home]; cbn [truthy negb].
    + eexists. eexists. split; [run_err|].
      split; [rewrite ?extend_extend; unfold extend; cbn [final rules_buf]; reflexivity|].
      cbn [final]. split; [reflexivity|]. expand_blocks. split.
      * simpl. intros H. repeat (destruct H as [H|H]; [discriminate H|]). exact H.
      * rewrite ?extend_extend. unfold extend. cbn [all_rule_names]. not_a_name.
    + eexists. eexists. split; [run_head|].
      split; [rewrite ?extend_extend; unfold extend; cbn [final rules_buf]; reflexivity|].
      cbn [final]. split; [reflexivity|]. expand_blocks. split.
      * simpl. tauto.
      * rewrite ?extend_extend. unfold extend. cbn [all_rule_names].
        rewrite !elem_of_union, !elem_of_singleton. tauto.
Qed.

(** ** Relative paths *)

Lemma endswith_append c x y :
  truthy y = true -> endswith_char c (x +:+ y) = endswith_char c y.
Proof.
  intros Hy. induction x as [|a x IH]; [reflexivity|].
  simpl. rewrite IH.
  destruct (x +:+ y) eqn:E; [|reflexivity].
  destruct x; simpl in E; [subst y; discriminate Hy|discriminate E].
Qed.

Lemma component_no_trailing_slash s :
  contains_slash s = false -> endswith_char "/" s = false.
Proof.
  induction s as [|a s IH]; [reflexivity|].
  simpl. intros H. apply orb_false_elim in H as [Ha Hs].
  destruct s; [exact Ha|]. apply IH, Hs.
Qed.

Lemma split_slash_no_slash s :
  Forall (fun x => contains_slash x = false) (split_slash s).
Proof.
  induction s as [|c s IH]; simpl.
  - repeat constructor.
  - destruct (Ascii.eqb c "/") eqn:Ec.
    + constructor; [reflexivity|exact IH].
    + destruct (split_slash s) as [|x xs].
      * repeat constructor. simpl. rewrite Ec. reflexivity.
      * inversion IH as [|? ? Hx Hxs]; subst.
        constructor; [|exact Hxs]. simpl. rewrite Ec, Hx. reflexivity.
Qed.

Lemma nonempty_comps_components s :
  Forall component (OsPath.nonempty_comps s).
Proof.
  unfold OsPath.nonempty_comps. apply List.Forall_forall. intros x Hx.
  apply List.filter_In in Hx as [Hin Ht]. split; [exact Ht|].
  pose proof (split_slash_no_slash s) as H.
  rewrite List.Forall_forall in H. apply H, Hin.
Qed.

Lemma join2_component path b :
  truthy path = true -> endswith_char "/" path = false -> component b ->
  truthy (OsPath.join2 path b) = true
  /\ endswith_char "/" (OsPath.join2 path b) = false.
Proof.
  intros Hp He [Hb Hs]. unfold OsPath.join2.
  destruct b as [|c b]; [discriminate Hb|].
  simpl in Hs. apply orb_false_elim in Hs as [Hc Hs].
  cbn [startswith]. rewrite (Ascii.eqb_sym "/" c), Hc.
  rewrite Hp, He. cbn [negb orb]. split.
  - destruct path; [discriminate Hp|reflexivity].
  - rewrite endswith_append by reflexivity.
    rewrite (endswith_append "/" "/" (String c b)) by reflexivity.
    apply component_no_trailing_slash. simpl. rewrite Hc, Hs. reflexivity.
Qed.

Lemma join_components p : forall a,
  truthy a = true -> endswith_char "/" a = false -> Forall component p ->
  truthy (OsPath.join a p) = true /\ endswith_char "/" (OsPath.join a p) = false.
Proof.
  induction p as [|b p IH]; intros a Ha He Hp; [split; assumption|].
  inversion Hp as [|? ? Hb Hp']; subst.
  destruct (join2_component a b Ha He Hb) as [Ha' He'].
  exact (IH _ Ha' He' Hp').
Qed.

(** [relpath] of a non-empty path is a non-empty string that does not
    end with a separator. *)
Lemma relpath_some cwd path start :
  truthy path = true ->
  exists r, OsPath.relpath cwd path start = Some r
    /\ truthy r = true /\ endswith_char "/" r = false.
Proof.
  intros Hp. unfold OsPath.relpath. rewrite Hp. cbn [negb].
  set (start_list := OsPath.nonempty_comps _).
  set (path_list := OsPath.nonempty_comps _).
  set (i := OsPath.common_len _ _).
  assert (Hrel : Forall component
            (List.repeat ".." (length start_list - i) ++ List.skipn i path_list)).
  { apply List.Forall_app. split.
    - apply List.Forall_forall. intros x Hx. apply List.repeat_spec in Hx. subst x.
      split; reflexivity.
    - pose proof (nonempty_comps_components (OsPath.abspath cwd path)) as H.
      fold path_list in H. rewrite List.Forall_forall in H |- *.
      intros x Hx. apply H.
      rewrite <- (List.firstn_skipn i path_list). apply List.in_or_app. right. exact Hx. }
  destruct (List.repeat ".." (length start_list - i) ++ List.skipn i path_list) as [|a p].
  - eexists. split; [reflexivity|]. split; reflexivity.
  - inversion Hrel as [|? ? [Ha Hs] Hp']; subst.
    eexists. split; [reflexivity|].
    apply join_components; [exact Ha|apply component_no_trailing_slash, Hs|exact Hp'].
Qed.

Example relpath_into_module :
  OsPath.relpath "/home/u/ws" "./" "src/mod" = Some "../..".
Proof. reflexivity. Qed.

Example relpath_of_absolute_binary :
  OsPath.relpath "/home/u/ws" "/usr/local/go/bin/go" "src/mod"
  = Some "../../../../../usr/local/go/bin/go".
Proof. reflexivity. Qed.

Example relpath_of_nothing : OsPath.relpath "/home/u/ws" "" "src/mod" = None.
Proof. reflexivity. Qed.

Example normpath_dots : OsPath.normpath "//a/./b/../c/" = "//a/c".
Proof. reflexivity. Qed.

Example normpath_above_root : OsPath.normpath "/../a" = "/a".
Proof. reflexivity. Qed.

Example join_restarts_at_absolute :
  OsPath.join "a" ["b"; ""; "/c"; "d/"; "e"] = "/c/d/e".
Proof. reflexivity. Qed.

(** ** The go rules *)

(** C1. In module mode with a module path [p], when the go rules are
    generated at all (a go home and a go binary are configured), the
    commands of [gocommand] and [gotest] change directory to [p], call
    the go binary by its path relative to [p], and write to
    [${out}] prefixed with the path from [p] back to the current
    directory followed by a separator. Without a go home or a go
    binary nothing is generated. *)
Theorem go_module_relpath_commands cfg s :
  go_module_enabled cfg = true ->
  truthy (go_module_relpath cfg) = true ->
  exists s' lines,
    generate_go_rules cfg s = Ok tt s'
    /\ rules_buf s' = rules_buf s ++ lines
    /\ let p := go_module_relpath cfg in
       if truthy (go_home cfg) && truthy (go cfg) then
         exists rel_go rel_out,
           OsPath.relpath (getcwd cfg) (go cfg) p = Some rel_go
           /\ OsPath.relpath (getcwd cfg) "./" p = Some rel_out
           /\ nth 0 (block_of "gocommand" lines) ""
              = ("  command = " +:+ ("cd " +:+ p +:+ " && " +:+ rel_go) +:+
                 " build -o " +:+ (rel_out +:+ "/") +:+
                 "${out} ${extra_goflags} ${package}") +:+ nl
           /\ nth 0 (block_of "gotest" lines) ""
              = ("  command = " +:+ ("cd " +:+ p +:+ " && " +:+ rel_go) +:+
                 " test -c -o " +:+ (rel_out +:+ "/") +:+
                 "${out} ${extra_goflags} ${package}") +:+ nl
       else lines = [].
Proof.
  intros Hen Hp. unfold generate_go_rules. rewrite Hen, Hp.
  destruct (truthy (go_home cfg) && truthy (go cfg)) eqn:Hgo.
  - apply andb_prop in Hgo as [_ Hgo].
    destruct (relpath_some (getcwd cfg) (go cfg) (go_module_relpath cfg) Hgo)
      as (rel_go & Ego & _).
    destruct (relpath_some (getcwd cfg) "./" (go_module_relpath cfg) eq_refl)
      as (rel_out & Eout & Tout & Sout).
    unfold relpath. rewrite Ego, Eout.
    run_to_lines.
    exists rel_go, rel_out. split; [reflexivity|]. split; [reflexivity|].
    unfold OsPath.join, OsPath.join2. cbn [fold_left startswith].
    rewrite Tout, Sout. cbn [negb orb].
    expand_blocks. split; reflexivity.
  - unfold when. eexists. exists []. split; [reflexivity|].
    split; [symmetry; apply app_nil_r|reflexivity].
Qed.

(** C1 at the configuration [cfg_go]: module mode, the module in
    [src/mod], the go binary in [/usr/local/go/bin]. *)
Lemma go_module_relpath_commands_witness :
  exists s' lines,
    generate_go_rules cfg_go (fresh_generator ∅) = Ok tt s'
    /\ rules_buf s' = rules_buf (fresh_generator ∅) ++ lines
    /\ exists rel_go rel_out,
         OsPath.relpath "/home/u/ws" "/usr/local/go/bin/go" "src/mod" = Some rel_go
         /\ OsPath.relpath "/home/u/ws" "./" "src/mod" = Some rel_out
         /\ nth 0 (block_of "gocommand" lines) ""
            = ("  command = " +:+ ("cd " +:+ "src/mod" +:+ " && " +:+ rel_go) +:+
               " build -o " +:+ (rel_out +:+ "/") +:+
               "${out} ${extra_goflags} ${package}") +:+ nl
         /\ nth 0 (block_of "gotest" lines) ""
            = ("  command = " +:+ ("cd " +:+ "src/mod" +:+ " && " +:+ rel_go) +:+
               " test -c -o " +:+ (rel_out +:+ "/") +:+
               "${out} ${extra_goflags} ${package}") +:+ nl.
Proof.
  exact (go_module_relpath_commands cfg_go (fresh_generator ∅) eq_refl eq_refl).
Defined.

(** The [gocommand] block for [cfg_go], as text. *)
Example go_module_relpath_example :
  block_of "gocommand"
    (rules_buf (final (generate_go_rules cfg_go (fresh_generator ∅))))
  = [ "  command = cd src/mod && ../../../../../usr/local/go/bin/go build -o ../../${out} ${extra_goflags} ${package}" +:+ nl;
      "  description = GOLANG COMMAND ${package}" +:+ nl;
      "  pool = golang_pool" +:+ nl ].
Proof. vm_compute. reflexivity. Qed.

(** ** Pool declarations *)

Lemma pool_decls_app l1 l2 : pool_decls (l1 ++ l2) = pool_decls l1 ++ pool_decls l2.
Proof. apply List.filter_app. Qed.

Lemma declares_weaken {A} (m : M A) p q : declares m p -> p = q -> declares m q.
Proof. intros H <-. exact H. Qed.

Lemma declares_ret {A} (a : A) : declares (mret a : M A) [].
Proof. intros s. cbn. symmetry. apply app_nil_r. Qed.

Lemma declares_raise {A} e pools : declares (raise e : M A) pools.
Proof.
  intros s. cbn. exists []. split; [apply prefix_nil|symmetry; apply app_nil_r].
Qed.

Lemma declares_bind {A B} (m : M A) (f : A -> M B) p1 p2 :
  declares m p1 -> (forall a, declares (f a) p2) -> declares (m ≫= f) (p1 ++ p2).
Proof.
  intros Hm Hf s. rewrite run_bind. specialize (Hm s).
  destruct (m s) as [a s1|e s1].
  - specialize (Hf a s1). destruct (f a s1) as [b s2|e s2].
    + rewrite Hf, Hm. symmetry. apply app_assoc.
    + destruct Hf as (pre & Hpre & Hf). exists (p1 ++ pre). split.
      * apply prefix_app, Hpre.
      * rewrite Hf, Hm. symmetry. apply app_assoc.
  - destruct Hm as (pre & Hpre & Hm). exists pre. split; [|exact Hm].
    apply prefix_app_r, Hpre.
Qed.

Lemma declares_extend {A} (m : M A) a lines names :
  (forall s, m s = Ok a (extend s lines names)) -> declares m (pool_decls lines).
Proof.
  intros H s. rewrite H. unfold extend; cbn [rules_buf]. apply pool_decls_app.
Qed.

Lemma declares_add_rule rule : declares (_add_rule rule) (pool_decls [rule +:+ nl]).
Proof. apply (declares_extend _ tt _ ∅). intros s. apply run_add_rule. Qed.

Lemma rule_block_no_pool cfg name command description depfile generator pool
    restat rspfile rspfile_content deps :
  pool_decls (rule_block cfg name command description depfile generator pool
                restat rspfile rspfile_content deps) = [].
Proof.
  unfold rule_block. rewrite !pool_decls_app.
  destruct description as [[|? ?]|], depfile as [[|? ?]|], generator,
    pool as [[|? ?]|], restat; try reflexivity.
  all: destruct rspfile as [[|? ?]|], rspfile_content as [[|? ?]|],
    deps as [[|? ?]|]; reflexivity.
Qed.

Lemma declares_generate_rule cfg name command description depfile generator
    pool restat rspfile rspfile_content deps :
  declares (generate_rule cfg name command description depfile generator pool
              restat rspfile rspfile_content deps) [].
Proof.
  eapply declares_weaken.
  - eapply declares_extend. intros s. apply run_generate_rule.
  - apply rule_block_no_pool.
Qed.

Lemma declares_generate_rule_desc cfg name command description :
  declares (generate_rule_desc cfg name command description) [].
Proof. unfold generate_rule_desc. apply declares_generate_rule. Qed.

Lemma declares_getenv k d : declares (getenv k d) [].
Proof. intros s. cbn. symmetry. apply app_nil_r. Qed.

Lemma declares_setenv k v : declares (setenv k v) [].
Proof. intros s. cbn. symmetry. apply app_nil_r. Qed.

Lemma declares_get_rules_buf : declares get_rules_buf [].
Proof. intros s. cbn. symmetry. apply app_nil_r. Qed.

Lemma declares_when c body p :
  declares body p -> declares (when c body) (if c then p else []).
Proof. intros H. destruct c; [exact H|apply declares_ret]. Qed.

Lemma declares_if {A} (c : bool) (m1 m2 : M A) p1 p2 :
  declares m1 p1 -> declares m2 p2 ->
  declares (if c then m1 else m2) (if c then p1 else p2).
Proof. intros H1 H2. destruct c; assumption. Qed.

Lemma declares_relpath cfg path start : declares (relpath cfg path start) [].
Proof.
  unfold relpath. destruct (OsPath.relpath _ _ _); [apply declares_ret|apply declares_raise].
Qed.

(** Every statement of a method is one of the above: the pool
    declarations of the method are collected statement by statement. *)
Ltac declares_step :=
  lazymatch goal with
  | |- declares (mbind _ _) _ => eapply declares_bind; [|intros ?]
  | |- declares (generate_rule _ _ _ _ _ _ _ _ _ _ _) _ => apply declares_generate_rule
  | |- declares (generate_rule_desc _ _ _ _) _ => apply declares_generate_rule_desc
  | |- declares (_add_rule _) _ => apply declares_add_rule
  | |- declares (mret _) _ => apply declares_ret
  | |- declares (raise _) _ => apply (declares_raise _ [])
  | |- declares (error_exit _) _ => apply (declares_raise _ [])
  | |- declares (getenv _ _) _ => apply declares_getenv
  | |- declares (setenv _ _) _ => apply declares_setenv
  | |- declares (relpath _ _ _) _ => apply declares_relpath
  | |- declares get_rules_buf _ => apply declares_get_rules_buf
  | |- declares (when _ _) _ => eapply declares_when
  | |- declares (if _ then _ else _) _ => eapply declares_if
  | |- declares (match ?p with (_, _) => _ end) _ => destruct p
  | |- declares (match ?p with Some _ => _ | None => _ end) _ => destruct p
  end.

Ltac declares_all :=
  eapply declares_weaken;
  [ repeat (cbv zeta; declares_step)
  | repeat match goal with |- context [if ?c then _ else _] => destruct c end;
    reflexivity ].

Lemma declares_file_header cfg : declares (generate_file_header cfg) [heavy_pool_decl].
Proof. unfold generate_file_header. declares_all. Qed.

Lemma declares_common_rules cfg : declares (generate_common_rules cfg) [].
Proof. unfold generate_common_rules. declares_all. Qed.

Lemma declares_cc_rules cfg : declares (generate_cc_rules cfg) (link_pool_decl cfg).
Proof.
  unfold generate_cc_rules, generate_cc_warning_vars, link_pool_decl, truthy_int.
  destruct (warning_flags cfg) as [[w cxxw] cw].
  destruct (flags_except_warning cfg) as [cpp0 ld0].
  destruct (link_jobs cfg) as [n|]; [destruct (Z.eqb n 0)|]; cbv [negb].
  all: declares_all.
Qed.

Lemma declares_proto_rules cfg : declares (generate_proto_rules cfg) [].
Proof. unfold generate_proto_rules. declares_all. Qed.

Lemma declares_resource_rules cfg : declares (generate_resource_rules cfg) [].
Proof. unfold generate_resource_rules. declares_all. Qed.

Lemma declares_java_scala_rules cfg : declares (generate_java_scala_rules cfg) [].
Proof.
  unfold generate_java_scala_rules, generate_javac_rules,
    generate_java_resource_rules, generate_java_test_rules,
    generate_java_binary_rules, generate_scala_rules.
  declares_all.
Qed.

Lemma declares_thrift_rules cfg : declares (generate_thrift_rules cfg) [].
Proof. unfold generate_thrift_rules. declares_all. Qed.

Lemma declares_python_rules cfg : declares (generate_python_rules cfg) [].
Proof. unfold generate_python_rules. declares_all. Qed.

Lemma declares_go_rules cfg : declares (generate_go_rules cfg) (golang_pool_decl cfg).
Proof. unfold generate_go_rules, golang_pool_decl. declares_all. Qed.

Lemma declares_shell_rules cfg : declares (generate_shell_rules cfg) [].
Proof. unfold generate_shell_rules. declares_all. Qed.

Lemma declares_lex_yacc_rules cfg : declares (generate_lex_yacc_rules cfg) [].
Proof. unfold generate_lex_yacc_rules. declares_all. Qed.

Lemma declares_package_rules cfg : declares (generate_package_rules cfg) [].
Proof. unfold generate_package_rules. declares_all. Qed.

Lemma declares_version_rules cfg : declares (generate_version_rules cfg) [].
Proof.
  unfold generate_version_rules. destruct (load_scm cfg) as [revision url].
  declares_all.
Qed.

Lemma declares_generate cfg : declares (generate cfg) (generate_pools cfg).
Proof.
  unfold generate, generate_pools.
  eapply declares_weaken.
  - eapply declares_bind; [apply declares_file_header|intros _].
    eapply declares_bind; [apply declares_common_rules|intros _].
    eapply declares_bind; [apply declares_cc_rules|intros _].
    eapply declares_bind; [apply declares_proto_rules|intros _].
    eapply declares_bind; [apply declares_resource_rules|intros _].
    eapply declares_bind; [apply declares_java_scala_rules|intros _].
    eapply declares_bind; [apply declares_thrift_rules|intros _].
    eapply declares_bind; [apply declares_python_rules|intros _].
    eapply declares_bind; [apply declares_go_rules|intros _].
    eapply declares_bind; [apply declares_shell_rules|intros _].
    eapply declares_bind; [apply declares_lex_yacc_rules|intros _].
    eapply declares_bind; [apply declares_package_rules|intros _].
    eapply declares_bind; [apply declares_version_rules|intros _].
    apply declares_get_rules_buf.
  - cbn [app]. rewrite !app_nil_r. reflexivity.
Qed.

Lemma generate_returns_buffer cfg s buf s' :
  generate cfg s = Ok buf s' -> buf = rules_buf s'.
Proof.
  unfold generate.
  repeat (rewrite run_bind;
          match goal with
          | |- match ?r with Ok _ _ => _ | Err _ _ => _ end = _ -> _ =>
              destruct r as [[] ?|]; [|discriminate]
          end).
  unfold get_rules_buf. intros H. injection H as <- <-. reflexivity.
Qed.

(** C5, as the code has it. Nothing checks a pool declaration against
    the earlier ones. One run of [generate] on a new generator writes
    [heavy_pool] of depth 1, then [link_pool] when link jobs are
    limited, then [golang_pool] of depth 1 when go is configured, each
    once: the names of the pools declared are distinct, also when the
    run stops on an error, where the declarations written are the
    first of these. *)
Theorem generate_pool_declarations cfg env :
  match generate cfg (fresh_generator env) with
  | Ok buf s' => buf = rules_buf s' /\ pool_decls buf = generate_pools cfg
  | Err _ s' => pool_decls (rules_buf s') `prefix_of` generate_pools cfg
  end
  /\ NoDup (List.map pool_name (generate_pools cfg)).
Proof.
  split.
  - pose proof (declares_generate cfg (fresh_generator env)) as H.
    destruct (generate cfg (fresh_generator env)) as [buf s'|e s'] eqn:E.
    + apply generate_returns_buffer in E. subst buf. split; [reflexivity|exact H].
    + destruct H as (pre & Hpre & ->). exact Hpre.
  - unfold generate_pools, link_pool_decl, golang_pool_decl.
    destruct (link_jobs cfg) as [n|]; [destruct (Z.eqb n 0)|];
      destruct (truthy (go_home cfg) && truthy (go cfg));
      cbn [List.map app pool_name heavy_pool_decl];
      apply (bool_decide_unpack _); reflexivity.
Qed.

(** C5, the claim refuted: the C and C++ rules generated twice on one
    generator, for four link jobs with eight parallel jobs and then
    with two, declare [link_pool] with depth 4 and again with depth 2,
    and both calls return normally. *)
Lemma conflicting_pool_depths_accepted :
  exists s1 s2,
    generate_cc_rules (cfg_link 4 8) (fresh_generator ∅) = Ok tt s1
    /\ generate_cc_rules (cfg_link 4 2) s1 = Ok tt s2
    /\ pool_decls (rules_buf s2)
       = [ ("pool link_pool" +:+ nl +:+ "  depth = 4") +:+ nl;
           ("pool link_pool" +:+ nl +:+ "  depth = 2") +:+ nl ].
Proof.
  eexists. eexists.
  split; [vm_compute; reflexivity|].
  split; [vm_compute; reflexivity|].
  vm_compute. reflexivity.
Qed.

(** ** Two runs *)

Lemma repeatable_ret {A} (a : A) : repeatable (mret a : M A).
Proof. split; [intros s1 s2 H; split; [reflexivity|exact H]|reflexivity]. Qed.

Lemma repeatable_raise {A} e : repeatable (raise e : M A).
Proof. split; [intros s1 s2 H; split; [reflexivity|exact H]|reflexivity]. Qed.

Lemma repeatable_bind {A B} (m : M A) (f : A -> M B) :
  repeatable m -> (forall a, repeatable (f a)) -> repeatable (m ≫= f).
Proof.
  intros [Hm Km] Hf. split.
  - intros s1 s2 H. rewrite !run_bind. specialize (Hm s1 s2 H).
    destruct (m s1) as [a1 t1|e1 t1], (m s2) as [a2 t2|e2 t2];
      try contradiction; destruct Hm as [<- Ht].
    + apply (Hf a1), Ht.
    + split; [reflexivity|exact Ht].
  - intros s k Hk. rewrite run_bind. specialize (Km s k Hk).
    destruct (m s) as [a t|e t]; cbn [final] in Km |- *; [|exact Km].
    rewrite <- Km. apply (Hf a), Hk.
Qed.

Lemma repeatable_add_rule rule : repeatable (_add_rule rule).
Proof.
  split; [|reflexivity].
  intros s1 s2 (Hb & Hn & He). unfold _add_rule. split; [reflexivity|].
  repeat split; cbn; [rewrite Hb; reflexivity|exact Hn|exact He].
Qed.

Lemma repeatable_add_rule_name name : repeatable (add_rule_name name).
Proof.
  split; [|reflexivity].
  intros s1 s2 (Hb & Hn & He). unfold add_rule_name. split; [reflexivity|].
  repeat split; cbn; [exact Hb|rewrite Hn; reflexivity|exact He].
Qed.

Lemma repeatable_get_rules_buf : repeatable get_rules_buf.
Proof.
  split; [|reflexivity].
  intros s1 s2 H. split; [apply H|exact H].
Qed.

Lemma repeatable_getenv k d : In k inputs -> repeatable (getenv k d).
Proof.
  intros Hk. split; [|reflexivity].
  intros s1 s2 H. unfold getenv. split; [|exact H].
  destruct H as (_ & _ & He). rewrite (He k Hk). reflexivity.
Qed.

Lemma repeatable_setenv k v : ~ In k inputs -> repeatable (setenv k v).
Proof.
  intros Hk. split.
  - intros s1 s2 (Hb & Hn & He). unfold setenv. split; [reflexivity|].
    repeat split; cbn; [exact Hb|exact Hn|].
    intros k' Hk'. rewrite !lookup_insert_ne by (intros ->; exact (Hk Hk')).
    apply He, Hk'.
  - intros s k' Hk'. cbn. apply lookup_insert_ne. intros ->. exact (Hk Hk').
Qed.

Lemma repeatable_when c body : repeatable body -> repeatable (when c body).
Proof. intros H. destruct c; [exact H|apply repeatable_ret]. Qed.

Lemma repeatable_when_str v body :
  (forall x, repeatable (body x)) -> repeatable (when_str v body).
Proof. intros H. destruct v as [[|c x]|]; try apply repeatable_ret. apply H. Qed.

Lemma repeatable_if {A} (c : bool) (m1 m2 : M A) :
  repeatable m1 -> repeatable m2 -> repeatable (if c then m1 else m2).
Proof. intros H1 H2. destruct c; assumption. Qed.

Lemma repeatable_relpath cfg path start : repeatable (relpath cfg path start).
Proof.
  unfold relpath. destruct (OsPath.relpath _ _ _);
    [apply repeatable_ret|apply repeatable_raise].
Qed.

Lemma repeatable_generate_rule cfg name command description depfile generator
    pool restat rspfile rspfile_content deps :
  repeatable (generate_rule cfg name command description depfile generator pool
                restat rspfile rspfile_content deps).
Proof.
  unfold generate_rule.
  repeat first
    [ apply repeatable_bind; [|intros ?]
    | apply repeatable_add_rule_name
    | apply repeatable_add_rule
    | apply repeatable_when_str; intros ?
    | apply repeatable_when ].
Qed.

Lemma repeatable_generate_rule_desc cfg name command description :
  repeatable (generate_rule_desc cfg name command description).
Proof. unfold generate_rule_desc. apply repeatable_generate_rule. Qed.

Ltac repeatable_step :=
  lazymatch goal with
  | |- repeatable (mbind _ _) => apply repeatable_bind; [|intros ?]
  | |- repeatable (generate_rule _ _ _ _ _ _ _ _ _ _ _) => apply repeatable_generate_rule
  | |- repeatable (generate_rule_desc _ _ _ _) => apply repeatable_generate_rule_desc
  | |- repeatable (_add_rule _) => apply repeatable_add_rule
  | |- repeatable (mret _) => apply repeatable_ret
  | |- repeatable (raise _) => apply repeatable_raise
  | |- repeatable (error_exit _) => apply repeatable_raise
  | |- repeatable (getenv _ _) =>
      apply repeatable_getenv; cbn; tauto
  | |- repeatable (setenv _ _) =>
      apply repeatable_setenv; cbn; intros H;
      repeat (destruct H as [H|H]; [discriminate H|]); exact H
  | |- repeatable (relpath _ _ _) => apply repeatable_relpath
  | |- repeatable get_rules_buf => apply repeatable_get_rules_buf
  | |- repeatable (when _ _) => apply repeatable_when
  | |- repeatable (if _ then _ else _) => apply repeatable_if
  | |- repeatable (match ?p with (_, _) => _ end) => destruct p
  | |- repeatable (match ?p with Some _ => _ | None => _ end) => destruct p
  end.

Ltac repeatable_all := repeat (cbv zeta; repeatable_step).

Lemma repeatable_generate cfg : repeatable (generate cfg).
Proof.
  unfold generate, generate_file_header, generate_common_rules,
    generate_cc_rules, generate_cc_warning_vars, generate_proto_rules,
    generate_resource_rules, generate_java_scala_rules, generate_javac_rules,
    generate_java_resource_rules, generate_java_test_rules,
    generate_java_binary_rules, generate_scala_rules, generate_thrift_rules,
    generate_python_rules, generate_go_rules, generate_shell_rules,
    generate_lex_yacc_rules, generate_package_rules, generate_version_rules.
  repeatable_all.
Qed.

(** C6. [generate] run a second time, with the same configuration, on a
    generator in the state the first one started from, in the process
    environment the first run has left behind, ends the same way: it
    returns the same list of lines, or stops on the same error with the
    same lines written. *)
Theorem generate_twice_same_text cfg s :
  let r1 := generate cfg s in
  let again := mkState (rules_buf s) (all_rule_names s) (environ (final r1)) in
  let r2 := generate cfg again in
  match r1, r2 with
  | Ok buf1 _, Ok buf2 _ => buf1 = buf2
  | Err e1 s1, Err e2 s2 => e1 = e2 /\ rules_buf s1 = rules_buf s2
  | _, _ => False
  end.
Proof.
  intros r1 again r2.
  destruct (repeatable_generate cfg) as [Hsame Hkeep].
  assert (H : same_inputs s again).
  { repeat split. intros k Hk. symmetry. apply (Hkeep s k Hk). }
  specialize (Hsame s again H). fold r1 r2 in Hsame.
  destruct r1 as [b1 t1|e1 t1], r2 as [b2 t2|e2 t2]; try contradiction.
  - apply Hsame.
  - destruct Hsame as [He (Hb & _)]. split; assumption.
Qed.

(** With ccache the first run does change the environment the second
    one starts in. *)
Example ccache_run_changes_environment :
  let r1 := generate cfg_ccache (fresh_generator ∅) in
  environ (fresh_generator ∅) !! "CCACHE_NOHASHDIR" = None
  /\ environ (final r1) !! "CCACHE_NOHASHDIR" = Some "true"
  /\ environ (final r1) !! "CCACHE_BASEDIR" = Some "/home/u/ws".
Proof. vm_compute. repeat split. Qed.

(** ** What every method adds *)

Lemma length_append x y : String.length (x +:+ y) = String.length x + String.length y.
Proof. induction x as [|a x IH]; simpl; [reflexivity|]. rewrite IH. reflexivity. Qed.

Lemma append_cancel_r z : forall x y, x +:+ z = y +:+ z -> x = y.
Proof.
  induction x as [|a x IH]; intros y H.
  - destruct y as [|b y]; [reflexivity|].
    apply (f_equal String.length) in H. simpl in H. rewrite length_append in H. lia.
  - destruct y as [|b y].
    + apply (f_equal String.length) in H. simpl in H. rewrite length_append in H. lia.
    + simpl in H. injection H as -> H. f_equal. apply IH, H.
Qed.

Lemma rule_header_inj n m : rule_header n = rule_header m -> n = m.
Proof.
  unfold rule_header. intros H. apply append_cancel_r in H.
  simpl in H. injection H as H. exact H.
Qed.

Lemma ends_with_newline_append x : ends_with_newline (x +:+ nl) = true.
Proof. unfold ends_with_newline. rewrite endswith_append by reflexivity. reflexivity. Qed.

Lemma added_nil : added [] ∅.
Proof.
  split; [constructor|]. intros n. split; [intros H|intros []].
  apply elem_of_empty in H. destruct H.
Qed.

Lemma added_app l1 n1 l2 n2 : added l1 n1 -> added l2 n2 -> added (l1 ++ l2) (n2 ∪ n1).
Proof.
  intros [F1 H1] [F2 H2]. split.
  - apply Forall_app. split; assumption.
  - intros n. rewrite elem_of_union, List.in_app_iff, H1, H2. tauto.
Qed.

Lemma added_line rule :
  startswith "rule " (rule +:+ nl) = false -> added [rule +:+ nl] ∅.
Proof.
  intros H. split.
  - repeat constructor. apply ends_with_newline_append.
  - intros n. split; [intros Hn; apply elem_of_empty in Hn; destruct Hn|].
    intros [E|[]]. rewrite E in H. discriminate H.
Qed.

Lemma startswith_append_l p : forall x y,
  startswith p x = true -> startswith p (x +:+ y) = true.
Proof.
  induction p as [|a p IH]; intros x y H; [reflexivity|].
  destruct x as [|b x]; [discriminate H|]. simpl in H |- *.
  destruct (Ascii.eqb a b); [apply IH, H|discriminate H].
Qed.

Lemma opt_line_fields pre v :
  startswith "  " pre = true ->
  Forall (fun l => startswith "  " l = true /\ ends_with_newline l = true) (opt_line pre v).
Proof.
  intros H. destruct v as [[|c x]|]; try constructor; [|constructor].
  split; [|apply ends_with_newline_append].
  apply startswith_append_l, startswith_append_l, H.
Qed.

Lemma rule_block_shape cfg name command description depfile generator pool
    restat rspfile rspfile_content deps :
  exists fields,
    rule_block cfg name command description depfile generator pool restat
      rspfile rspfile_content deps = rule_header name :: fields
    /\ Forall (fun l => startswith "  " l = true /\ ends_with_newline l = true) fields.
Proof.
  eexists. split; [reflexivity|].
  constructor; [split; [reflexivity|apply ends_with_newline_append]|].
  repeat apply Forall_app_2; try (apply opt_line_fields; reflexivity).
  - destruct description as [[|c x]|]; repeat constructor.
    apply ends_with_newline_append.
  - destruct generator; repeat constructor.
  - destruct restat; repeat constructor.
Qed.

Lemma added_rule_block cfg name command description depfile generator pool
    restat rspfile rspfile_content deps :
  added (rule_block cfg name command description depfile generator pool restat
           rspfile rspfile_content deps) {[ name ]}.
Proof.
  destruct (rule_block_shape cfg name command description depfile generator
              pool restat rspfile rspfile_content deps) as (fields & -> & Hf).
  split.
  - constructor; [apply ends_with_newline_append|].
    eapply Forall_impl; [exact Hf|]. intros l [_ H]. exact H.
  - intros n. rewrite elem_of_singleton. split.
    + intros ->. left. reflexivity.
    + intros [E|Hin]; [symmetry; apply rule_header_inj, E|].
      rewrite List.Forall_forall in Hf. destruct (Hf _ Hin) as [H _].
      discriminate H.
Qed.

Lemma appends_ret {A} (a : A) : appends (mret a : M A).
Proof.
  intros s. exists [], ∅. cbn. split; [symmetry; apply app_nil_r|].
  split; [symmetry; apply (left_id_L ∅ (∪))|apply added_nil].
Qed.

Lemma appends_raise {A} e : appends (raise e : M A).
Proof.
  intros s. exists [], ∅. cbn. split; [symmetry; apply app_nil_r|].
  split; [symmetry; apply (left_id_L ∅ (∪))|apply added_nil].
Qed.

Lemma appends_bind {A B} (m : M A) (f : A -> M B) :
  appends m -> (forall a, appends (f a)) -> appends (m ≫= f).
Proof.
  intros Hm Hf s. rewrite run_bind.
  destruct (Hm s) as (l1 & n1 & Hb1 & Hn1 & Ha1).
  destruct (m s) as [a s1|e s1]; cbn [final] in *.
  - destruct (Hf a s1) as (l2 & n2 & Hb2 & Hn2 & Ha2).
    exists (l1 ++ l2), (n2 ∪ n1). split; [|split].
    + rewrite Hb2, Hb1. symmetry. apply app_assoc.
    + rewrite Hn2, Hn1. apply (assoc_L (∪)).
    + apply added_app; assumption.
  - exists l1, n1. repeat split; try assumption; apply Ha1.
Qed.

Lemma appends_extend {A} (m : M A) a lines names :
  (forall s, m s = Ok a (extend s lines names)) -> added lines names -> appends m.
Proof.
  intros H Ha s. exists lines, names. rewrite H. cbn. repeat split; apply Ha.
Qed.

Lemma appends_add_rule rule :
  startswith "rule " (rule +:+ nl) = false -> appends (_add_rule rule).
Proof.
  intros H. eapply appends_extend; [intros s; apply run_add_rule|].
  apply added_line, H.
Qed.

Lemma appends_generate_rule cfg name command description depfile generator
    pool restat rspfile rspfile_content deps :
  appends (generate_rule cfg name command description depfile generator pool
             restat rspfile rspfile_content deps).
Proof.
  eapply appends_extend; [intros s; apply run_generate_rule|].
  apply added_rule_block.
Qed.

Lemma appends_generate_rule_desc cfg name command description :
  appends (generate_rule_desc cfg name command description).
Proof. unfold generate_rule_desc. apply appends_generate_rule. Qed.

Lemma appends_getenv k d : appends (getenv k d).
Proof.
  intros s. exists [], ∅. cbn. split; [symmetry; apply app_nil_r|].
  split; [symmetry; apply (left_id_L ∅ (∪))|apply added_nil].
Qed.

Lemma appends_setenv k v : appends (setenv k v).
Proof.
  intros s. exists [], ∅. cbn. split; [symmetry; apply app_nil_r|].
  split; [symmetry; apply (left_id_L ∅ (∪))|apply added_nil].
Qed.

Lemma appends_get_rules_buf : appends get_rules_buf.
Proof.
  intros s. exists [], ∅. cbn. split; [symmetry; apply app_nil_r|].
  split; [symmetry; apply (left_id_L ∅ (∪))|apply added_nil].
Qed.

Lemma appends_when c body : appends body -> appends (when c body).
Proof. intros H. destruct c; [exact H|apply appends_ret]. Qed.

Lemma appends_if {A} (c : bool) (m1 m2 : M A) :
  appends m1 -> appends m2 -> appends (if c then m1 else m2).
Proof. intros H1 H2. destruct c; assumption. Qed.

Lemma appends_relpath cfg path start : appends (relpath cfg path start).
Proof.
  unfold relpath. destruct (OsPath.relpath _ _ _);
    [apply appends_ret|apply appends_raise].
Qed.

Ltac appends_step :=
  lazymatch goal with
  | |- appends (mbind _ _) => apply appends_bind; [|intros ?]
  | |- appends (generate_rule _ _ _ _ _ _ _ _ _ _ _) => apply appends_generate_rule
  | |- appends (generate_rule_desc _ _ _ _) => apply appends_generate_rule_desc
  | |- appends (_add_rule _) => apply appends_add_rule; reflexivity
  | |- appends (mret _) => apply appends_ret
  | |- appends (raise _) => apply appends_raise
  | |- appends (error_exit _) => apply appends_raise
  | |- appends (getenv _ _) => apply appends_getenv
  | |- appends (setenv _ _) => apply appends_setenv
  | |- appends (relpath _ _ _) => apply appends_relpath
  | |- appends get_rules_buf => apply appends_get_rules_buf
  | |- appends (when _ _) => apply appends_when
  | |- appends (if _ then _ else _) => apply appends_if
  | |- appends (match ?p with (_, _) => _ end) => destruct p
  | |- appends (match ?p with Some _ => _ | None => _ end) => destruct p
  end.

Lemma appends_generate cfg : appends (generate cfg).
Proof.
  unfold generate, generate_file_header, generate_common_rules,
    generate_cc_rules, generate_cc_warning_vars, generate_proto_rules,
    generate_resource_rules, generate_java_scala_rules, generate_javac_rules,
    generate_java_resource_rules, generate_java_test_rules,
    generate_java_binary_rules, generate_scala_rules, generate_thrift_rules,
    generate_python_rules, generate_go_rules, generate_shell_rules,
    generate_lex_yacc_rules, generate_package_rules, generate_version_rules.
  repeat (cbv zeta; appends_step).
Qed.

(** X1. [generate] only appends: whatever the state it starts in and
    however it ends, the buffer it leaves starts with the buffer it
    found, and no rule name is lost. *)
Theorem generate_only_appends cfg s :
  rules_buf s `prefix_of` rules_buf (final (generate cfg s))
  /\ all_rule_names s ⊆ all_rule_names (final (generate cfg s)).
Proof.
  destruct (appends_generate cfg s) as (lines & names & Hb & Hn & _).
  split.
  - exists lines. exact Hb.
  - rewrite Hn. apply union_subseteq_r.
Qed.

(** X2. Every entry of the buffer that [generate] fills ends with a
    newline, so that writing the entries one after the other gives
    whole lines. *)
Theorem generate_writes_whole_lines cfg env :
  Forall (fun l => ends_with_newline l = true)
    (rules_buf (final (generate cfg (fresh_generator env)))).
Proof.
  destruct (appends_generate cfg (fresh_generator env)) as (lines & names & Hb & _ & Ha).
  rewrite Hb. cbn. apply Ha.
Qed.

(** X3. After [generate] on a new generator, the rule names it holds
    are the names of the rule blocks in the buffer: a name is in the
    set exactly when its [rule] line has been written. *)
Theorem generate_names_are_rule_blocks cfg env n :
  let s' := final (generate cfg (fresh_generator env)) in
  n ∈ all_rule_names s' <-> In (rule_header n) (rules_buf s').
Proof.
  cbv zeta.
  destruct (appends_generate cfg (fresh_generator env)) as (lines & names & Hb & Hn & Ha).
  rewrite Hb, Hn. cbn. rewrite (right_id_L ∅ (∪)). apply Ha.
Qed.

(** ** The rules of a manifest *)

Lemma rule_decls_app l1 l2 : rule_decls (l1 ++ l2) = rule_decls l1 ++ rule_decls l2.
Proof. apply List.filter_app. Qed.

Lemma field_is_no_rule l : startswith "  " l = true -> startswith "rule " l = false.
Proof.
  destruct l as [|c l]; cbn [startswith]; [intros H; discriminate H|].
  destruct (Ascii.eqb_spec " " c) as [<-|_]; intros H; [reflexivity|discriminate H].
Qed.

Lemma rule_decls_rule_block cfg name command description depfile generator pool
    restat rspfile rspfile_content deps :
  rule_decls (rule_block cfg name command description depfile generator pool
                restat rspfile rspfile_content deps) = [rule_header name].
Proof.
  destruct (rule_block_shape cfg name command description depfile generator
              pool restat rspfile rspfile_content deps) as (fields & -> & Hf).
  unfold rule_decls. cbn [List.filter]. change (startswith "rule " (rule_header name)) with true.
  cbv iota. f_equal.
  induction Hf as [|l fields [Hl _] _ IH]; [reflexivity|].
  cbn [List.filter]. rewrite (field_is_no_rule l Hl). exact IH.
Qed.

Lemma defines_weaken {A} (m : M A) p q : defines m p -> p = q -> defines m q.
Proof. intros H <-. exact H. Qed.

Lemma defines_ret {A} (a : A) : defines (mret a : M A) [].
Proof. intros s. cbn. symmetry. apply app_nil_r. Qed.

Lemma defines_raise {A} e names : defines (raise e : M A) names.
Proof.
  intros s. cbn. exists []. split; [apply prefix_nil|symmetry; apply app_nil_r].
Qed.

Lemma defines_bind {A B} (m : M A) (f : A -> M B) p1 p2 :
  defines m p1 -> (forall a, defines (f a) p2) -> defines (m ≫= f) (p1 ++ p2).
Proof.
  intros Hm Hf s. rewrite run_bind. specialize (Hm s).
  destruct (m s) as [a s1|e s1].
  - specialize (Hf a s1). destruct (f a s1) as [b s2|e s2].
    + rewrite Hf, Hm, List.map_app. symmetry. apply app_assoc.
    + destruct Hf as (pre & Hpre & Hf). exists (p1 ++ pre). split.
      * apply prefix_app, Hpre.
      * rewrite Hf, Hm, List.map_app. symmetry. apply app_assoc.
  - destruct Hm as (pre & Hpre & Hm). exists pre. split; [|exact Hm].
    apply prefix_app_r, Hpre.
Qed.

Lemma defines_add_rule rule :
  startswith "rule " (rule +:+ nl) = false -> defines (_add_rule rule) [].
Proof.
  intros H s. rewrite run_add_rule. unfold extend; cbn [rules_buf].
  rewrite rule_decls_app.
  assert (E : rule_decls [rule +:+ nl] = []).
  { unfold rule_decls. cbn [List.filter]. rewrite H. reflexivity. }
  rewrite E. reflexivity.
Qed.

Lemma defines_generate_rule cfg name command description depfile generator
    pool restat rspfile rspfile_content deps :
  defines (generate_rule cfg name command description depfile generator pool
             restat rspfile rspfile_content deps) [name].
Proof.
  intros s. rewrite run_generate_rule. unfold extend; cbn [rules_buf].
  rewrite rule_decls_app, rule_decls_rule_block. reflexivity.
Qed.

Lemma defines_generate_rule_desc cfg name command description :
  defines (generate_rule_desc cfg name command description) [name].
Proof. unfold generate_rule_desc. apply defines_generate_rule. Qed.

Lemma defines_getenv k d : defines (getenv k d) [].
Proof. intros s. cbn. symmetry. apply app_nil_r. Qed.

Lemma defines_setenv k v : defines (setenv k v) [].
Proof. intros s. cbn. symmetry. apply app_nil_r. Qed.

Lemma defines_get_rules_buf : defines get_rules_buf [].
Proof. intros s. cbn. symmetry. apply app_nil_r. Qed.

Lemma defines_when c body p :
  defines body p -> defines (when c body) (if c then p else []).
Proof. intros H. destruct c; [exact H|apply defines_ret]. Qed.

Lemma defines_if {A} (c : bool) (m1 m2 : M A) p1 p2 :
  defines m1 p1 -> defines m2 p2 ->
  defines (if c then m1 else m2) (if c then p1 else p2).
Proof. intros H1 H2. destruct c; assumption. Qed.

Lemma defines_relpath cfg path start : defines (relpath cfg path start) [].
Proof.
  unfold relpath. destruct (OsPath.relpath _ _ _);
    [apply defines_ret|apply defines_raise].
Qed.

Ltac defines_step :=
  lazymatch goal with
  | |- defines (mbind _ _) _ => eapply defines_bind; [|intros ?]
  | |- defines (generate_rule _ _ _ _ _ _ _ _ _ _ _) _ => apply defines_generate_rule
  | |- defines (generate_rule_desc _ _ _ _) _ => apply defines_generate_rule_desc
  | |- defines (_add_rule _) _ => apply defines_add_rule; reflexivity
  | |- defines (mret _) _ => apply defines_ret
  | |- defines (raise _) _ => apply (defines_raise _ [])
  | |- defines (error_exit _) _ => apply (defines_raise _ [])
  | |- defines (getenv _ _) _ => apply defines_getenv
  | |- defines (setenv _ _) _ => apply defines_setenv
  | |- defines (relpath _ _ _) _ => apply defines_relpath
  | |- defines get_rules_buf _ => apply defines_get_rules_buf
  | |- defines (when _ _) _ => eapply defines_when
  | |- defines (if _ then _ else _) _ => eapply defines_if
  | |- defines (match ?p with (_, _) => _ end) _ => destruct p
  | |- defines (match ?p with Some _ => _ | None => _ end) _ => destruct p
  end.

Ltac defines_all :=
  eapply defines_weaken;
  [ repeat (cbv zeta; defines_step)
  | repeat match goal with |- context [if ?c then _ else _] => destruct c end;
    reflexivity ].

Lemma defines_file_header cfg : defines (generate_file_header cfg) [].
Proof. unfold generate_file_header. defines_all. Qed.

Lemma defines_common_rules cfg : defines (generate_common_rules cfg) ["stamp"; "copy"].
Proof. unfold generate_common_rules. defines_all. Qed.

Lemma defines_cc_rules cfg : defines (generate_cc_rules cfg) (cc_rule_names cfg).
Proof.
  unfold generate_cc_rules, generate_cc_warning_vars, cc_rule_names, truthy_int.
  destruct (warning_flags cfg) as [[w cxxw] cw].
  destruct (flags_except_warning cfg) as [cpp0 ld0].
  destruct (link_jobs cfg) as [n|]; [destruct (Z.eqb n 0)|]; cbv [negb].
  all: defines_all.
Qed.

Lemma defines_proto_rules cfg : defines (generate_proto_rules cfg) (proto_rule_names cfg).
Proof. unfold generate_proto_rules, proto_rule_names. defines_all. Qed.

Lemma defines_resource_rules cfg :
  defines (generate_resource_rules cfg) ["resource_index"; "resource"].
Proof. unfold generate_resource_rules. defines_all. Qed.

Lemma defines_java_scala_rules cfg :
  defines (generate_java_scala_rules cfg) java_scala_rule_names.
Proof.
  unfold generate_java_scala_rules, generate_javac_rules,
    generate_java_resource_rules, generate_java_test_rules,
    generate_java_binary_rules, generate_scala_rules.
  defines_all.
Qed.

Lemma defines_thrift_rules cfg : defines (generate_thrift_rules cfg) ["thrift"].
Proof. unfold generate_thrift_rules. defines_all. Qed.

Lemma defines_python_rules cfg :
  defines (generate_python_rules cfg) ["pythonlibrary"; "pythonbinary"].
Proof. unfold generate_python_rules. defines_all. Qed.

Lemma defines_go_rules cfg : defines (generate_go_rules cfg) (go_rule_names cfg).
Proof. unfold generate_go_rules, go_rule_names. defines_all. Qed.

Lemma defines_shell_rules cfg :
  defines (generate_shell_rules cfg) ["shelltest"; "shelltestdata"].
Proof. unfold generate_shell_rules. defines_all. Qed.

Lemma defines_lex_yacc_rules cfg : defines (generate_lex_yacc_rules cfg) ["lex"; "yacc"].
Proof. unfold generate_lex_yacc_rules. defines_all. Qed.

Lemma defines_package_rules cfg :
  defines (generate_package_rules cfg) ["package"; "package_tar"; "package_zip"].
Proof. unfold generate_package_rules. defines_all. Qed.

Lemma defines_version_rules cfg : defines (generate_version_rules cfg) ["scm"].
Proof.
  unfold generate_version_rules. destruct (load_scm cfg) as [revision url].
  defines_all.
Qed.

Lemma defines_generate cfg : defines (generate cfg) (generate_rule_names cfg).
Proof.
  unfold generate, generate_rule_names.
  eapply defines_weaken.
  - eapply defines_bind; [apply defines_file_header|intros _].
    eapply defines_bind; [apply defines_common_rules|intros _].
    eapply defines_bind; [apply defines_cc_rules|intros _].
    eapply defines_bind; [apply defines_proto_rules|intros _].
    eapply defines_bind; [apply defines_resource_rules|intros _].
    eapply defines_bind; [apply defines_java_scala_rules|intros _].
    eapply defines_bind; [apply defines_thrift_rules|intros _].
    eapply defines_bind; [apply defines_python_rules|intros _].
    eapply defines_bind; [apply defines_go_rules|intros _].
    eapply defines_bind; [apply defines_shell_rules|intros _].
    eapply defines_bind; [apply defines_lex_yacc_rules|intros _].
    eapply defines_bind; [apply defines_package_rules|intros _].
    eapply defines_bind; [apply defines_version_rules|intros _].
    apply defines_get_rules_buf.
  - unfold java_scala_rule_names. cbn [app]. reflexivity.
Qed.

Lemma generate_rule_names_nodup cfg : NoDup (generate_rule_names cfg).
Proof.
  unfold generate_rule_names, cc_rule_names, proto_rule_names,
    java_scala_rule_names, go_rule_names.
  destruct (header_inclusion_dependencies cfg), (truthy (protoc_go_plugin cfg)),
    (truthy (go_home cfg) && truthy (go cfg));
    apply (bool_decide_unpack _); vm_compute; reflexivity.
Qed.

Lemma names_of_rule_decls (s : state) (l : list string) :
  (forall n, n ∈ all_rule_names s <-> In (rule_header n) (rules_buf s)) ->
  rule_decls (rules_buf s) = List.map rule_header l ->
  NoDup l ->
  get_all_rule_names s ≡ₚ l.
Proof.
  intros Hn Hd Hl. unfold get_all_rule_names.
  assert (E : all_rule_names s = list_to_set l).
  { apply set_eq. intros n. rewrite Hn, elem_of_list_to_set, list_elem_of_In.
    assert (F : In (rule_header n) (rules_buf s)
                <-> In (rule_header n) (rule_decls (rules_buf s))).
    { unfold rule_decls. rewrite List.filter_In. unfold rule_header at 3.
      cbn [String.append startswith]. rewrite !Ascii.eqb_refl. tauto. }
    rewrite F, Hd, List.in_map_iff. split.
    - intros (m & E & Hm). apply rule_header_inj in E. subst m. exact Hm.
    - intros H. exists n. split; [reflexivity|exact H]. }
  rewrite E. apply elements_list_to_set, Hl.
Qed.

(** X4. The rule blocks that one run of [generate] on a new generator
    writes are those of a fixed list of names, in order, with [cchdrs]
    and [cxxhdrs] only when header inclusion is tracked, [protogo] only
    with a go plugin and the three go rules only when go is configured.
    No name comes twice, and the list of names handed to the caller is
    this list, in some order. When the run stops on the configuration
    error, the same holds of the rules up to that point. *)
Theorem generate_rules_declared cfg env :
  match generate cfg (fresh_generator env) with
  | Ok buf s' =>
      rule_decls buf = List.map rule_header (generate_rule_names cfg)
      /\ get_all_rule_names s' ≡ₚ generate_rule_names cfg
  | Err _ s' =>
      exists pre, pre `prefix_of` generate_rule_names cfg
        /\ rule_decls (rules_buf s') = List.map rule_header pre
        /\ get_all_rule_names s' ≡ₚ pre
  end
  /\ NoDup (generate_rule_names cfg).
Proof.
  split; [|apply generate_rule_names_nodup].
  pose proof (defines_generate cfg (fresh_generator env)) as Hd.
  assert (Hn : forall n,
    n ∈ all_rule_names (final (generate cfg (fresh_generator env)))
    <-> In (rule_header n) (rules_buf (final (generate cfg (fresh_generator env))))).
  { intros n.
    destruct (appends_generate cfg (fresh_generator env))
      as (lines & names & Hb & Hnames & Ha).
    rewrite Hb, Hnames. cbn. rewrite (right_id_L ∅ (∪)). apply Ha. }
  destruct (generate cfg (fresh_generator env)) as [buf s'|e s'] eqn:E;
    cbn [final] in Hn.
  - apply generate_returns_buffer in E. subst buf. cbn in Hd. split; [exact Hd|].
    apply names_of_rule_decls; [exact Hn|exact Hd|apply generate_rule_names_nodup].
  - destruct Hd as (pre & Hpre & Hd). cbn in Hd. exists pre.
    split; [exact Hpre|]. split; [exact Hd|].
    apply names_of_rule_decls; [exact Hn|exact Hd|].
    destruct Hpre as [k Hk]. pose proof (generate_rule_names_nodup cfg) as H.
    rewrite Hk in H. apply NoDup_app in H. apply H.
Qed.

(** ** When [generate] stops *)

Lemma succeeds_ret {A} (a : A) : succeeds (mret a : M A).
Proof. intros s. eexists. eexists. reflexivity. Qed.

Lemma succeeds_bind {A B} (m : M A) (f : A -> M B) :
  succeeds m -> (forall a, succeeds (f a)) -> succeeds (m ≫= f).
Proof.
  intros Hm Hf s. destruct (Hm s) as (a & s1 & E).
  rewrite (run_bind_ok _ _ _ _ _ E). apply Hf.
Qed.

Lemma succeeds_add_rule rule : succeeds (_add_rule rule).
Proof. intros s. eexists. eexists. reflexivity. Qed.

Lemma succeeds_generate_rule cfg name command description depfile generator
    pool restat rspfile rspfile_content deps :
  succeeds (generate_rule cfg name command description depfile generator pool
              restat rspfile rspfile_content deps).
Proof. intros s. eexists. eexists. apply run_generate_rule. Qed.

Lemma succeeds_generate_rule_desc cfg name command description :
  succeeds (generate_rule_desc cfg name command description).
Proof. unfold generate_rule_desc. apply succeeds_generate_rule. Qed.

Lemma succeeds_getenv k d : succeeds (getenv k d).
Proof. intros s. eexists. eexists. reflexivity. Qed.

Lemma succeeds_setenv k v : succeeds (setenv k v).
Proof. intros s. eexists. eexists. reflexivity. Qed.

Lemma succeeds_get_rules_buf : succeeds get_rules_buf.
Proof. intros s. eexists. eexists. reflexivity. Qed.

Lemma succeeds_when c body : succeeds body -> succeeds (when c body).
Proof. intros H. destruct c; [exact H|apply succeeds_ret]. Qed.

Lemma succeeds_if {A} (c : bool) (m1 m2 : M A) :
  succeeds m1 -> succeeds m2 -> succeeds (if c then m1 else m2).
Proof. intros H1 H2. destruct c; assumption. Qed.

(** [relpath] does not raise on a path that is not empty. *)
Lemma succeeds_relpath cfg path start :
  truthy path = true -> succeeds (relpath cfg path start).
Proof.
  intros H s. unfold relpath.
  destruct (relpath_some (getcwd cfg) path start H) as (r & -> & _).
  eexists. eexists. reflexivity.
Qed.

Ltac succeeds_step :=
  lazymatch goal with
  | |- succeeds (mbind _ _) => apply succeeds_bind; [|intros ?]
  | |- succeeds (generate_rule _ _ _ _ _ _ _ _ _ _ _) => apply succeeds_generate_rule
  | |- succeeds (generate_rule_desc _ _ _ _) => apply succeeds_generate_rule_desc
  | |- succeeds (_add_rule _) => apply succeeds_add_rule
  | |- succeeds (mret _) => apply succeeds_ret
  | |- succeeds (getenv _ _) => apply succeeds_getenv
  | |- succeeds (setenv _ _) => apply succeeds_setenv
  | |- succeeds (relpath _ _ _) => apply succeeds_relpath; first [assumption|reflexivity]
  | |- succeeds get_rules_buf => apply succeeds_get_rules_buf
  | |- succeeds (when _ _) => apply succeeds_when
  | |- succeeds (if _ then _ else _) => apply succeeds_if
  | |- succeeds (match ?p with (_, _) => _ end) => destruct p
  | |- succeeds (match ?p with Some _ => _ | None => _ end) => destruct p
  end.

Ltac succeeds_all := repeat (cbv zeta; succeeds_step).

Lemma succeeds_before_proto cfg :
  succeeds (generate_file_header cfg) /\ succeeds (generate_common_rules cfg)
  /\ succeeds (generate_cc_rules cfg).
Proof.
  unfold generate_file_header, generate_common_rules, generate_cc_rules,
    generate_cc_warning_vars.
  repeat split; succeeds_all.
Qed.

Lemma succeeds_go_rules cfg : succeeds (generate_go_rules cfg).
Proof.
  unfold generate_go_rules.
  destruct (truthy (go_home cfg)); [|apply succeeds_ret].
  destruct (truthy (go cfg)) eqn:Hgo; [|apply succeeds_ret].
  cbn [andb]. succeeds_all.
Qed.

Lemma succeeds_after_proto cfg :
  succeeds (generate_resource_rules cfg) /\ succeeds (generate_java_scala_rules cfg)
  /\ succeeds (generate_thrift_rules cfg) /\ succeeds (generate_python_rules cfg)
  /\ succeeds (generate_shell_rules cfg) /\ succeeds (generate_lex_yacc_rules cfg)
  /\ succeeds (generate_package_rules cfg) /\ succeeds (generate_version_rules cfg).
Proof.
  unfold generate_resource_rules, generate_java_scala_rules, generate_javac_rules,
    generate_java_resource_rules, generate_java_test_rules,
    generate_java_binary_rules, generate_scala_rules, generate_thrift_rules,
    generate_python_rules, generate_shell_rules,
    generate_lex_yacc_rules, generate_package_rules, generate_version_rules.
  repeat split; succeeds_all.
Qed.

Lemma proto_rules_outcome cfg s :
  if go_home_missing cfg then
    exists s', generate_proto_rules cfg s
      = Err (SystemExit
          "go_home is not configured in either BLADE_ROOT or BLADE_ROOT.local.") s'
  else exists s', generate_proto_rules cfg s = Ok tt s'.
Proof.
  unfold go_home_missing, generate_proto_rules.
  destruct (protoc_go_plugin cfg) as [|c1 plugin]; cbn [truthy andb].
  - eexists. run_head.
  - destruct (go_home cfg) as [|c2 home]; cbn [truthy negb].
    + eexists. run_err.
    + eexists. run_head.
Qed.

Lemma generate_outcome cfg s :
  if go_home_missing cfg then
    exists s', generate cfg s
      = Err (SystemExit
          "go_home is not configured in either BLADE_ROOT or BLADE_ROOT.local.") s'
  else exists buf s', generate cfg s = Ok buf s'.
Proof.
  destruct (succeeds_before_proto cfg) as (H1 & H2 & H3).
  destruct (succeeds_after_proto cfg) as (H5 & H6 & H7 & H8 & H10 & H11 & H12 & H13).
  pose proof (succeeds_go_rules cfg) as H9.
  unfold generate.
  destruct (H1 s) as ([] & s1 & E1). rewrite (run_bind_ok _ _ _ _ _ E1).
  destruct (H2 s1) as ([] & s2 & E2). rewrite (run_bind_ok _ _ _ _ _ E2).
  destruct (H3 s2) as ([] & s3 & E3). rewrite (run_bind_ok _ _ _ _ _ E3).
  pose proof (proto_rules_outcome cfg s3) as H4.
  destruct (go_home_missing cfg).
  - destruct H4 as (s4 & E4). exists s4. apply run_bind_err, E4.
  - destruct H4 as (s4 & E4). rewrite (run_bind_ok _ _ _ _ _ E4).
    destruct (H5 s4) as ([] & s5 & E5). rewrite (run_bind_ok _ _ _ _ _ E5).
    destruct (H6 s5) as ([] & s6 & E6). rewrite (run_bind_ok _ _ _ _ _ E6).
    destruct (H7 s6) as ([] & s7 & E7). rewrite (run_bind_ok _ _ _ _ _ E7).
    destruct (H8 s7) as ([] & s8 & E8). rewrite (run_bind_ok _ _ _ _ _ E8).
    destruct (H9 s8) as ([] & s9 & E9). rewrite (run_bind_ok _ _ _ _ _ E9).
    destruct (H10 s9) as ([] & s10 & E10). rewrite (run_bind_ok _ _ _ _ _ E10).
    destruct (H11 s10) as ([] & s11 & E11). rewrite (run_bind_ok _ _ _ _ _ E11).
    destruct (H12 s11) as ([] & s12 & E12). rewrite (run_bind_ok _ _ _ _ _ E12).
    destruct (H13 s12) as ([] & s13 & E13). rewrite (run_bind_ok _ _ _ _ _ E13).
    eexists. eexists. reflexivity.
Qed.

(** X5. [generate] stops on an error in one case only: a go plugin for
    protoc is configured and [go_home] is not. It then stops on
    [console.error_exit] with the message about [go_home]. In every
    other configuration it returns; the [ValueError] of [relpath] is
    never raised. *)
Theorem generate_stops_only_without_go_home cfg s :
  if go_home_missing cfg then
    exists s', generate cfg s
      = Err (SystemExit
          "go_home is not configured in either BLADE_ROOT or BLADE_ROOT.local.") s'
  else exists buf s', generate cfg s = Ok buf s'.
Proof. apply generate_outcome. Qed.

(** ** Pools are declared before they are used *)

Lemma go_rules_lines cfg s :
  exists s' lines,
    generate_go_rules cfg s = Ok tt s'
    /\ rules_buf s' = rules_buf s ++ lines
    /\ if truthy (go_home cfg) && truthy (go cfg) then
         comes_before (startswith "pool golang_pool")
           (String.eqb ("  pool = golang_pool" +:+ nl)) lines = true
       else lines = [].
Proof.
  unfold generate_go_rules.
  destruct (truthy (go_home cfg) && truthy (go cfg)) eqn:Hgo.
  - apply andb_prop in Hgo as [_ Hgo].
    destruct (relpath_some (getcwd cfg) (go cfg) (go_module_relpath cfg) Hgo)
      as (rel_go & Ego & _).
    destruct (relpath_some (getcwd cfg) "./" (go_module_relpath cfg) eq_refl)
      as (rel_out & Eout & _).
    unfold relpath. rewrite Ego, Eout.
    destruct (go_module_enabled cfg), (truthy (go_module_relpath cfg)).
    all: run_to_lines; expand_blocks; reflexivity.
  - unfold when. eexists. exists []. split; [reflexivity|].
    split; [symmetry; apply app_nil_r|reflexivity].
Qed.

(** X6. A pool is declared before the first rule that is bound to it:
    in the lines of the C and C++ rules [pool link_pool] comes before
    any [pool = link_pool], and without a link-job limit no rule has
    that line; in the lines of the go rules [pool golang_pool] comes
    before any [pool = golang_pool]. *)
Theorem pools_declared_before_use cfg s :
  (exists s' lines,
     generate_cc_rules cfg s = Ok tt s'
     /\ rules_buf s' = rules_buf s ++ lines
     /\ let used := String.eqb ("  pool = link_pool" +:+ nl) in
        if truthy_int (link_jobs cfg)
        then comes_before (startswith "pool link_pool") used lines = true
        else first_index used lines = None)
  /\ (exists s' lines,
        generate_go_rules cfg s = Ok tt s'
        /\ rules_buf s' = rules_buf s ++ lines
        /\ if truthy (go_home cfg) && truthy (go cfg) then
             comes_before (startswith "pool golang_pool")
               (String.eqb ("  pool = golang_pool" +:+ nl)) lines = true
           else lines = []).
Proof.
  split; [|apply go_rules_lines].
  cc_cases cfg.
  all: run_to_lines.
  all: expand_blocks.
  all: reflexivity.
Qed.

(** ** The go rules in workspace mode *)

Lemma startswith_slash_append x y :
  startswith "/" x = true -> startswith "/" (x +:+ y) = true.
Proof. apply startswith_append_l. Qed.

Lemma normpath_absolute path :
  OsPath.isabs path = true -> OsPath.isabs (OsPath.normpath path) = true.
Proof.
  unfold OsPath.isabs, OsPath.normpath. intros H.
  destruct path as [|c path]; [discriminate H|]. cbn [truthy negb].
  rewrite H.
  destruct (startswith "//" (String c path) && negb (startswith "///" (String c path)));
    cbv zeta; cbn [String.append truthy]; reflexivity.
Qed.

Lemma abspath_absolute cwd path :
  OsPath.isabs cwd = true -> OsPath.isabs (OsPath.abspath cwd path) = true.
Proof.
  intros H. unfold OsPath.abspath.
  destruct (OsPath.isabs path) eqn:Hp; apply normpath_absolute; [exact Hp|].
  unfold OsPath.join, OsPath.isabs in *. cbn [fold_left]. unfold OsPath.join2.
  rewrite Hp.
  destruct (negb (truthy cwd) || endswith_char "/" cwd);
    apply startswith_slash_append, H.
Qed.

(** X7. Outside module mode the three go commands run the go binary
    with [GOPATH] set to the go home made absolute and normalised, an
    absolute path as the current directory is one, and write to
    [${out}] as it is. *)
Theorem gopath_mode_commands cfg s :
  go_module_enabled cfg = false ->
  OsPath.isabs (getcwd cfg) = true ->
  exists s' lines,
    generate_go_rules cfg s = Ok tt s'
    /\ rules_buf s' = rules_buf s ++ lines
    /\ if truthy (go_home cfg) && truthy (go cfg) then
         exists go_path,
           go_path = OsPath.normpath (OsPath.abspath (getcwd cfg) (go_home cfg))
           /\ OsPath.isabs go_path = true
           /\ let run := "GOPATH=" +:+ go_path +:+ " " +:+ go cfg in
              nth 0 (block_of "gopackage" lines) ""
              = ("  command = " +:+ run +:+ " install ${extra_goflags} ${package}") +:+ nl
              /\ nth 0 (block_of "gocommand" lines) ""
                 = ("  command = " +:+ run +:+
                    " build -o ${out} ${extra_goflags} ${package}") +:+ nl
              /\ nth 0 (block_of "gotest" lines) ""
                 = ("  command = " +:+ run +:+
                    " test -c -o ${out} ${extra_goflags} ${package}") +:+ nl
       else lines = [].
Proof.
  intros Hen Hcwd. unfold generate_go_rules. rewrite Hen.
  destruct (truthy (go_home cfg) && truthy (go cfg)).
  - run_to_lines. eexists. split; [reflexivity|].
    split; [apply normpath_absolute, abspath_absolute, Hcwd|].
    expand_blocks. repeat split; reflexivity.
  - unfold when. eexists. exists []. split; [reflexivity|].
    split; [symmetry; apply app_nil_r|reflexivity].
Qed.

(** X7 at [cfg_gopath]: the go home [third_party/go] under the
    workspace [/home/u/ws]. *)
Lemma gopath_mode_commands_witness :
  exists s' lines,
    generate_go_rules cfg_gopath (fresh_generator ∅) = Ok tt s'
    /\ rules_buf s' = rules_buf (fresh_generator ∅) ++ lines
    /\ exists go_path,
         go_path = OsPath.normpath (OsPath.abspath "/home/u/ws" "third_party/go")
         /\ OsPath.isabs go_path = true
         /\ let run := "GOPATH=" +:+ go_path +:+ " " +:+ "go" in
            nth 0 (block_of "gopackage" lines) ""
            = ("  command = " +:+ run +:+ " install ${extra_goflags} ${package}") +:+ nl
            /\ nth 0 (block_of "gocommand" lines) ""
               = ("  command = " +:+ run +:+
                  " build -o ${out} ${extra_goflags} ${package}") +:+ nl
            /\ nth 0 (block_of "gotest" lines) ""
               = ("  command = " +:+ run +:+
                  " test -c -o ${out} ${extra_goflags} ${package}") +:+ nl.
Proof.
  exact (gopath_mode_commands cfg_gopath (fresh_generator ∅) eq_refl eq_refl).
Defined.

Example gopath_mode_example :
  nth 0 (block_of "gocommand"
    (rules_buf (final (generate_go_rules cfg_gopath (fresh_generator ∅))))) ""
  = "  command = GOPATH=/home/u/ws/third_party/go go build -o ${out} ${extra_goflags} ${package}" +:+ nl.
Proof. vm_compute. reflexivity. Qed.

(** ** The thrift compiler as a target *)

Lemma replace_colon_step c s :
  replace_go ":" "/" 0 (String c s)
  = String (if Ascii.eqb ":" c then "/"%char else c) (replace_go ":" "/" 0 s).
Proof.
  cbn [replace_go startswith String.length Nat.sub].
  destruct (Ascii.eqb ":" c); reflexivity.
Qed.

Lemma replace_colon_no_colon s : contains_char ":" (replace ":" "/" s) = false.
Proof.
  unfold replace. induction s as [|c s IH]; [reflexivity|].
  rewrite replace_colon_step. cbn [contains_char]. rewrite IH, orb_false_r.
  destruct (Ascii.eqb_spec ":" c) as [<-|Hc]; [reflexivity|].
  apply Ascii.eqb_neq. intros ->. apply Hc. reflexivity.
Qed.

Lemma replace_colon_app x y :
  replace ":" "/" (x +:+ y) = replace ":" "/" x +:+ replace ":" "/" y.
Proof.
  unfold replace. induction x as [|c x IH]; [reflexivity|].
  cbn [String.append]. rewrite !replace_colon_step, IH. reflexivity.
Qed.

Lemma replace_colon_id x : contains_char ":" x = false -> replace ":" "/" x = x.
Proof.
  unfold replace. induction x as [|c x IH]; [reflexivity|].
  cbn [contains_char]. intros H. apply orb_false_elim in H as [Hc Hx].
  rewrite replace_colon_step, (IH Hx), (Ascii.eqb_sym ":" c), Hc. reflexivity.
Qed.

Lemma replace_leading_slashes new s :
  startswith "//" s = true ->
  exists rest, replace "//" new s = new +:+ rest.
Proof.
  intros H. destruct s as [|a [|b r]]; try discriminate H.
  - cbn [startswith] in H. destruct (Ascii.eqb "/" a); discriminate H.
  - eexists. unfold replace. cbn [replace_go]. rewrite H.
    cbn [String.length Nat.sub]. reflexivity.
Qed.

(** X8. A thrift compiler given as a blade target, [//dir:name], is
    called by a path without any colon, which is under the build
    directory when that has no colon either; a compiler given in any
    other way is called as it is given. *)
Theorem thrift_tool_path cfg s :
  exists s' lines tool,
    generate_thrift_rules cfg s = Ok tt s'
    /\ rules_buf s' = rules_buf s ++ lines
    /\ nth 0 (block_of "thrift" lines) ""
       = ("  command = " +:+ tool +:+ " --gen " +:+ thrift_gen_params cfg +:+ " " +:+
          "-I . " +:+ _incs_list_to_string (thrift_incs cfg) +:+
          " -I `dirname ${in}` " +:+
          "-out " +:+ build_dir cfg +:+ "/`dirname ${in}` ${in}") +:+ nl
    /\ if startswith "//" (thrift cfg) then
         contains_char ":" tool = false
         /\ contains_char ":" (build_dir cfg)
            || startswith (build_dir cfg +:+ "/") tool = true
       else tool = thrift cfg.
Proof.
  unfold generate_thrift_rules.
  eexists. eexists. eexists.
  split; [run_head|].
  split; [rewrite ?extend_extend; unfold extend;
          cbn [rules_buf all_rule_names environ]; reflexivity|].
  expand_blocks. split; [reflexivity|].
  destruct (startswith "//" (thrift cfg)) eqn:Ht; [|reflexivity].
  split; [apply replace_colon_no_colon|].
  destruct (contains_char ":" (build_dir cfg)) eqn:Hb; [reflexivity|].
  cbn [orb].
  destruct (replace_leading_slashes (build_dir cfg +:+ "/") _ Ht) as (rest & ->).
  rewrite !replace_colon_app, (replace_colon_id _ Hb).
  change (replace ":" "/" "/") with "/".
  apply startswith_append.
Qed.

Example thrift_target_example :
  nth 0 (block_of "thrift"
    (rules_buf (final (generate_thrift_rules cfg_thrift (fresh_generator ∅))))) ""
  = "  command = build64_release/thirdparty/thrift/thrift --gen cpp,java,py -I .  -I `dirname ${in}` -out build64_release/`dirname ${in}` ${in}" +:+ nl.
Proof. vm_compute. reflexivity. Qed.

(** ** The build script *)

Lemma append_nil_r x : x +:+ "" = x.
Proof. induction x as [|a x IH]; [reflexivity|]. cbn [String.append]. rewrite IH. reflexivity. Qed.

Lemma writelines_cons x l : writelines (x :: l) = x +:+ writelines l.
Proof.
  unfold writelines. destruct l as [|y l]; cbn [String.concat].
  - symmetry. apply append_nil_r.
  - reflexivity.
Qed.

Lemma writelines_app l1 l2 : writelines (l1 ++ l2) = writelines l1 +:+ writelines l2.
Proof.
  induction l1 as [|x l1 IH]; [reflexivity|].
  cbn [app]. rewrite !writelines_cons, IH. symmetry. apply append_assoc.
Qed.

Lemma generate_build_rules_run cfg targets env :
  match generate cfg (fresh_generator env) with
  | Ok header s0 =>
      generate_build_rules cfg targets env
      = Ok (header ++ targets, get_all_rule_names s0)
           (mkState (header ++ targets) (all_rule_names s0) (environ s0))
  | Err e s0 => generate_build_rules cfg targets env = Err e s0
  end.
Proof.
  unfold generate_build_rules, generate_build_rules_on.
  destruct (generate cfg (fresh_generator env)) as [header s0|e s0] eqn:E.
  - rewrite (run_bind_ok _ _ _ _ _ E).
    apply generate_returns_buffer in E. subst header. reflexivity.
  - apply run_bind_err, E.
Qed.

(** X9. The rules that [generate_build_rules] returns are those of the
    header followed by those of the targets. The list they are added to
    is the buffer of the header generator, which holds them all
    afterwards; the rule names stored are those of the header
    generator, whatever the target rules are. When the header cannot
    be generated nothing is returned. *)
Theorem build_rules_header_then_targets cfg targets env :
  match generate cfg (fresh_generator env) with
  | Ok header s0 =>
      exists s',
        generate_build_rules cfg targets env
        = Ok (header ++ targets, get_all_rule_names s0) s'
        /\ rules_buf s' = header ++ targets
        /\ all_rule_names s' = all_rule_names s0
  | Err e s0 => generate_build_rules cfg targets env = Err e s0
  end.
Proof.
  pose proof (generate_build_rules_run cfg targets env) as H.
  destruct (generate cfg (fresh_generator env)) as [header s0|e s0]; [|exact H].
  eexists. split; [exact H|]. split; reflexivity.
Qed.

Lemma appends_after_header cfg :
  appends (generate_common_rules cfg ≫= fun _ =>
           generate_cc_rules cfg ≫= fun _ =>
           generate_proto_rules cfg ≫= fun _ =>
           generate_resource_rules cfg ≫= fun _ =>
           generate_java_scala_rules cfg ≫= fun _ =>
           generate_thrift_rules cfg ≫= fun _ =>
           generate_python_rules cfg ≫= fun _ =>
           generate_go_rules cfg ≫= fun _ =>
           generate_shell_rules cfg ≫= fun _ =>
           generate_lex_yacc_rules cfg ≫= fun _ =>
           generate_package_rules cfg ≫= fun _ =>
           generate_version_rules cfg ≫= fun _ =>
           get_rules_buf).
Proof.
  unfold generate_common_rules,
    generate_cc_rules, generate_cc_warning_vars, generate_proto_rules,
    generate_resource_rules, generate_java_scala_rules, generate_javac_rules,
    generate_java_resource_rules, generate_java_test_rules,
    generate_java_binary_rules, generate_scala_rules, generate_thrift_rules,
    generate_python_rules, generate_go_rules, generate_shell_rules,
    generate_lex_yacc_rules, generate_package_rules, generate_version_rules.
  repeat (cbv zeta; appends_step).
Qed.

Lemma generate_starts_with_header cfg env :
  exists lines,
    rules_buf (final (generate cfg (fresh_generator env)))
    = [("# build.ninja generated by blade" +:+ nl +:+
        "ninja_required_version = 1.7" +:+ nl +:+
        "builddir = " +:+ build_dir cfg) +:+ nl;
       ("pool heavy_pool" +:+ nl +:+ "  depth = 1" +:+ nl) +:+ nl] ++ lines.
Proof.
  unfold generate. rewrite run_bind.
  unfold generate_file_header at 1.
  erewrite run_bind_ok by (rewrite run_add_rule; reflexivity).
  rewrite run_add_rule.
  match goal with |- context [final (?m ?s)] =>
    destruct (appends_after_header cfg s) as (lines & names & Hb & _)
  end.
  exists lines. rewrite Hb. reflexivity.
Qed.

(** X10. The script that [generate_build_script] writes is the lines of
    the header followed by the lines of the targets, with nothing
    between them; it begins with the comment, the ninja version, the
    build directory and the pool of depth 1. When the header cannot be
    generated, which is when a go plugin has no go home, no script is
    written. *)
Theorem build_script_text cfg targets env :
  match generate_build_script cfg targets env with
  | Ok (rules, text) _ =>
      exists header s0,
        generate cfg (fresh_generator env) = Ok header s0
        /\ rules = header ++ targets
        /\ text = writelines header +:+ writelines targets
        /\ startswith (file_header_text cfg) text = true
  | Err e _ =>
      go_home_missing cfg = true
      /\ generate cfg (fresh_generator env)
         = Err e (final (generate cfg (fresh_generator env)))
  end.
Proof.
  unfold generate_build_script.
  pose proof (generate_build_rules_run cfg targets env) as H.
  pose proof (generate_outcome cfg (fresh_generator env)) as Hstop.
  destruct (generate_starts_with_header cfg env) as (lines & Hhead).
  destruct (generate cfg (fresh_generator env)) as [header s0|e s0] eqn:E.
  - rewrite H. exists header, s0. split; [reflexivity|]. split; [reflexivity|].
    split; [apply writelines_app|].
    apply generate_returns_buffer in E. subst header. cbn [final] in Hhead.
    assert (Ht : exists r,
      writelines (rules_buf s0) +:+ writelines targets = file_header_text cfg +:+ r).
    { rewrite Hhead. cbn [app]. rewrite !writelines_cons.
      unfold file_header_text. eexists.
      rewrite !append_assoc. simpl. rewrite ?append_assoc. simpl. reflexivity. }
    rewrite writelines_app. destruct Ht as (r & ->). apply startswith_append.
  - rewrite H. split; [|reflexivity].
    destruct (go_home_missing cfg); [reflexivity|].
    destruct Hstop as (buf & s' & Hstop). discriminate Hstop.
Qed.

(** ** The path arithmetic of module mode *)

(** *** Components *)

Lemma proper_not_special x : proper x ->
  String.eqb x "" = false /\ String.eqb x "." = false /\ String.eqb x ".." = false.
Proof.
  intros ([Ht _] & H1 & H2). repeat split; apply String.eqb_neq; try assumption.
  intros ->. discriminate Ht.
Qed.

Lemma normpath_comps_app k l1 : forall l2 acc,
  OsPath.normpath_comps k (l1 ++ l2) acc
  = OsPath.normpath_comps k l2 (rev (OsPath.normpath_comps k l1 acc)).
Proof.
  induction l1 as [|c l1 IH]; intros l2 acc.
  - cbn [app OsPath.normpath_comps]. rewrite rev_involutive. reflexivity.
  - cbn [app OsPath.normpath_comps].
    destruct (String.eqb c "" || String.eqb c "."); [apply IH|].
    destruct (negb (String.eqb c "..") || _ || _); [apply IH|].
    destruct acc; apply IH.
Qed.

(** Names are pushed. *)
Lemma normpath_comps_proper k l : forall acc,
  Forall proper l ->
  OsPath.normpath_comps k l acc = rev acc ++ l.
Proof.
  induction l as [|c l IH]; intros acc Hl.
  - cbn. symmetry. apply app_nil_r.
  - inversion Hl as [|? ? Hc Hl']; subst.
    destruct (proper_not_special c Hc) as (E1 & E2 & E3).
    cbn [OsPath.normpath_comps]. rewrite E1, E2, E3. cbn [orb negb].
    rewrite IH by exact Hl'. cbn [rev]. rewrite <- app_assoc. reflexivity.
Qed.

(** At the root and below, [..] pops a name. *)
Lemma normpath_comps_dotdot k n : forall acc l,
  k <> 0 -> Forall proper acc -> n <= length acc ->
  OsPath.normpath_comps k (List.repeat ".." n ++ l) acc
  = OsPath.normpath_comps k l (List.skipn n acc).
Proof.
  induction n as [|n IH]; intros acc l Hk Hacc Hn; [reflexivity|].
  destruct acc as [|a acc]; [cbn in Hn; lia|].
  inversion Hacc as [|? ? Ha Hacc']; subst.
  destruct (proper_not_special a Ha) as (_ & _ & E3).
  cbn [List.repeat app OsPath.normpath_comps String.eqb Ascii.eqb orb negb].
  change (String.eqb ".." "") with false. change (String.eqb ".." ".") with false.
  change (String.eqb ".." "..") with true.
  cbn [orb negb]. rewrite E3.
  destruct k as [|k]; [contradiction|]. cbn [Nat.eqb andb orb].
  cbn [List.skipn]. apply IH; [discriminate|exact Hacc'|cbn in Hn; lia].
Qed.

Lemma common_len_firstn l1 : forall l2,
  List.firstn (OsPath.common_len l1 l2) l1 = List.firstn (OsPath.common_len l1 l2) l2.
Proof.
  induction l1 as [|x l1 IH]; intros [|y l2]; try reflexivity.
  cbn [OsPath.common_len]. destruct (String.eqb_spec x y) as [->|_]; [|reflexivity].
  cbn [List.firstn]. f_equal. apply IH.
Qed.

Lemma common_len_le l1 : forall l2, OsPath.common_len l1 l2 <= length l1.
Proof.
  induction l1 as [|x l1 IH]; intros [|y l2]; cbn; try lia.
  destruct (String.eqb x y); cbn; [specialize (IH l2)|]; lia.
Qed.

(** The heart of it: from the names of [start], going up to the common
    part and down along [path] gives the names of [path]. *)
Lemma up_and_down k (start path : list string) :
  k <> 0 -> Forall proper start -> Forall proper path ->
  let i := OsPath.common_len start path in
  OsPath.normpath_comps k
    (start ++ List.repeat ".." (length start - i) ++ List.skipn i path) []
  = path.
Proof.
  intros Hk Hs Hp i.
  rewrite normpath_comps_app, (normpath_comps_proper k start [] Hs).
  cbn [rev app]. rewrite normpath_comps_dotdot;
    [|exact Hk|apply Forall_rev, Hs|rewrite length_rev; lia].
  rewrite normpath_comps_proper.
  2:{ apply List.Forall_forall. intros x Hx. rewrite List.Forall_forall in Hp.
      apply Hp. rewrite <- (List.firstn_skipn i path). apply List.in_or_app. right. exact Hx. }
  rewrite <- (List.firstn_skipn i path) at 2. f_equal.
  pose proof (common_len_le start path) as Hle. fold i in Hle.
  rewrite skipn_rev, rev_involutive.
  replace (length start - (length start - i)) with i by lia.
  apply common_len_firstn.
Qed.

(** *** Strings of components *)

Lemma join_cons_tail l : forall a, Py.join "/" (a :: l) = a +:+ tail_join l.
Proof.
  induction l as [|b l IH]; intros a.
  - cbn. symmetry. apply append_nil_r.
  - change (Py.join "/" (a :: b :: l)) with (a +:+ "/" +:+ Py.join "/" (b :: l)).
    rewrite IH. reflexivity.
Qed.

Lemma tail_join_app l1 l2 : tail_join (l1 ++ l2) = tail_join l1 +:+ tail_join l2.
Proof.
  induction l1 as [|b l1 IH]; [reflexivity|].
  cbn [app tail_join]. rewrite IH, !append_assoc. reflexivity.
Qed.

Lemma split_slash_component x z :
  contains_slash x = false ->
  split_slash (x +:+ "/" +:+ z) = x :: split_slash z.
Proof.
  induction x as [|c x IH]; intros H; [reflexivity|].
  cbn [contains_slash] in H. apply orb_false_elim in H as [Hc Hx].
  specialize (IH Hx). cbn [String.append split_slash] in IH |- *.
  rewrite Hc, IH. reflexivity.
Qed.

Lemma split_slash_single x : contains_slash x = false -> split_slash x = [x].
Proof.
  induction x as [|c x IH]; intros H; [reflexivity|].
  cbn [contains_slash] in H. apply orb_false_elim in H as [Hc Hx].
  cbn [split_slash]. rewrite Hc, (IH Hx). reflexivity.
Qed.

Lemma split_slash_tail_join l : forall a,
  contains_slash a = false -> Forall component l ->
  split_slash (a +:+ tail_join l) = a :: l.
Proof.
  induction l as [|b l IH]; intros a Ha Hl.
  - cbn [tail_join]. rewrite append_nil_r. apply split_slash_single, Ha.
  - inversion Hl as [|? ? [_ Hb] Hl']; subst.
    cbn [tail_join]. rewrite split_slash_component by exact Ha.
    rewrite IH by assumption. reflexivity.
Qed.

Lemma tail_join_end b l :
  Forall component (b :: l) ->
  truthy (tail_join (b :: l)) = true
  /\ endswith_char "/" (tail_join (b :: l)) = false.
Proof.
  revert b. induction l as [|b' l IH]; intros b Hl;
    inversion Hl as [|? ? [Hb Hs] Hl']; subst.
  - split; [reflexivity|]. cbn [tail_join]. rewrite append_nil_r.
    rewrite endswith_append by exact Hb. apply component_no_trailing_slash, Hs.
  - split; [reflexivity|]. destruct (IH b' Hl') as [Ht He].
    change (tail_join (b :: b' :: l)) with (("/" +:+ b) +:+ tail_join (b' :: l)).
    rewrite endswith_append by exact Ht. exact He.
Qed.

Lemma components_end a l :
  Forall component (a :: l) ->
  truthy (a +:+ tail_join l) = true
  /\ endswith_char "/" (a +:+ tail_join l) = false.
Proof.
  intros H. inversion H as [|? ? [Ha Hs] Hl]; subst. split.
  - destruct a; [discriminate Ha|reflexivity].
  - destruct l as [|b l].
    + cbn [tail_join]. rewrite append_nil_r. apply component_no_trailing_slash, Hs.
    + destruct (tail_join_end b l Hl) as [Ht He].
      rewrite endswith_append by exact Ht. exact He.
Qed.

(** [os.path.join] of components is [sep.join]. *)
Lemma join_tail_join p : forall x,
  truthy x = true -> endswith_char "/" x = false -> Forall component p ->
  OsPath.join x p = x +:+ tail_join p.
Proof.
  induction p as [|b p IH]; intros x Hx He Hp.
  - cbn. symmetry. apply append_nil_r.
  - inversion Hp as [|? ? Hb Hp']; subst.
    destruct (join2_component x b Hx He Hb) as [Hx' He'].
    change (OsPath.join x (b :: p)) with (OsPath.join (OsPath.join2 x b) p).
    rewrite (IH _ Hx' He' Hp').
    unfold OsPath.join2. destruct Hb as [Hb Hs].
    destruct b as [|c b]; [discriminate Hb|].
    cbn [contains_slash] in Hs. apply orb_false_elim in Hs as [Hc _].
    cbn [startswith]. rewrite (Ascii.eqb_sym "/" c), Hc, Hx, He.
    cbn [negb orb andb tail_join]. rewrite !append_assoc. reflexivity.
Qed.

Lemma component_relative a l :
  component a -> startswith "/" (a +:+ tail_join l) = false.
Proof.
  intros [Ha Hs]. destruct a as [|c a]; [discriminate Ha|].
  cbn [contains_slash] in Hs. apply orb_false_elim in Hs as [Hc _].
  cbn [String.append startswith]. rewrite (Ascii.eqb_sym "/" c), Hc. reflexivity.
Qed.

(** *** Rooted paths *)

Lemma proper_component l : Forall proper l -> Forall component l.
Proof. intros H. eapply List.Forall_impl; [|exact H]. intros x [Hx _]. exact Hx. Qed.

Lemma lead_rooted k cs :
  k = 1 \/ k = 2 -> Forall component cs -> lead (rooted k cs) = k.
Proof.
  intros Hk Hcs. unfold rooted. destruct cs as [|a l].
  - destruct Hk as [-> | ->]; reflexivity.
  - inversion Hcs as [|? ? [Ha Hs] _]; subst. rewrite join_cons_tail.
    destruct a as [|c a]; [discriminate Ha|].
    cbn [contains_slash] in Hs. apply orb_false_elim in Hs as [Hc _].
    unfold lead.
    assert (Hc' : Ascii.eqb "/" c = false) by (rewrite Ascii.eqb_sym; exact Hc).
    destruct Hk as [-> | ->]; cbn [slashes String.append startswith];
      rewrite ?Ascii.eqb_refl, ?Hc'; reflexivity.
Qed.

Lemma truthy_rooted k cs : k = 1 \/ k = 2 -> truthy (rooted k cs) = true.
Proof. intros [-> | ->]; reflexivity. Qed.

Lemma split_slash_rooted k cs :
  k = 1 \/ k = 2 -> Forall component cs ->
  List.filter truthy (split_slash (rooted k cs)) = List.filter truthy cs.
Proof.
  intros Hk Hcs. unfold rooted.
  assert (H : List.filter truthy (split_slash (Py.join "/" cs)) = List.filter truthy cs).
  { destruct cs as [|a l]; [reflexivity|].
    inversion Hcs as [|? ? [Ha Hs] Hl]; subst.
    rewrite join_cons_tail, split_slash_tail_join by assumption. reflexivity. }
  destruct Hk as [-> | ->]; cbn [slashes String.append split_slash];
    rewrite ?Ascii.eqb_refl; cbn [List.filter truthy]; exact H.
Qed.

Lemma filter_truthy_components l :
  Forall component l -> List.filter truthy l = l.
Proof.
  induction 1 as [|x l [Hx _] _ IH]; [reflexivity|].
  cbn [List.filter]. rewrite Hx, IH. reflexivity.
Qed.

Lemma nonempty_comps_rooted k cs :
  k = 1 \/ k = 2 -> Forall component cs ->
  OsPath.nonempty_comps (rooted k cs) = cs.
Proof.
  intros Hk Hcs. unfold OsPath.nonempty_comps.
  rewrite split_slash_rooted by assumption. apply filter_truthy_components, Hcs.
Qed.

Lemma normpath_comps_filter k l : forall acc,
  OsPath.normpath_comps k (List.filter truthy l) acc = OsPath.normpath_comps k l acc.
Proof.
  induction l as [|c l IH]; intros acc; [reflexivity|].
  cbn [List.filter]. destruct c as [|a c].
  - cbn [truthy OsPath.normpath_comps String.eqb orb]. apply IH.
  - cbn [truthy OsPath.normpath_comps].
    destruct (String.eqb (String a c) "" || String.eqb (String a c) "."); [apply IH|].
    destruct (negb (String.eqb (String a c) "..") || _ || _); [apply IH|].
    destruct acc; apply IH.
Qed.

Lemma normpath_unfold path :
  truthy path = true ->
  OsPath.normpath path
  = let path' := rooted (lead path)
                   (OsPath.normpath_comps (lead path) (split_slash path) []) in
    if truthy path' then path' else ".".
Proof.
  intros H. unfold OsPath.normpath, lead, rooted. rewrite H. cbn [negb].
  destruct (startswith "/" path); [|reflexivity].
  destruct (startswith "//" path && negb (startswith "///" path)); reflexivity.
Qed.

(** [normpath] of a rooted path normalises its components. *)
Lemma normpath_rooted k cs :
  k = 1 \/ k = 2 -> Forall component cs ->
  OsPath.normpath (rooted k cs) = rooted k (OsPath.normpath_comps k cs []).
Proof.
  intros Hk Hcs. rewrite normpath_unfold by (apply truthy_rooted, Hk).
  rewrite lead_rooted by assumption. cbv zeta.
  rewrite truthy_rooted by exact Hk.
  rewrite <- normpath_comps_filter, split_slash_rooted by assumption.
  rewrite normpath_comps_filter. reflexivity.
Qed.

Lemma lead_absolute path :
  OsPath.isabs path = true -> lead path = 1 \/ lead path = 2.
Proof.
  unfold OsPath.isabs, lead. intros ->.
  destruct (startswith "//" path && negb (startswith "///" path)); auto.
Qed.

Lemma normpath_comps_names k l : forall acc,
  k <> 0 -> Forall (fun x => contains_slash x = false) l -> Forall proper acc ->
  Forall proper (OsPath.normpath_comps k l acc).
Proof.
  induction l as [|c l IH]; intros acc Hk Hl Hacc.
  - cbn. apply Forall_rev, Hacc.
  - inversion Hl as [|? ? Hc Hl']; subst. cbn [OsPath.normpath_comps].
    destruct (String.eqb_spec c "") as [->|E1]; [apply IH; assumption|].
    destruct (String.eqb_spec c ".") as [->|E2]; [apply IH; assumption|].
    cbn [orb].
    destruct (String.eqb_spec c "..") as [->|E3].
    + cbn [negb orb]. destruct k as [|k]; [contradiction|]. cbn [Nat.eqb andb orb].
      destruct acc as [|a acc]; [apply IH; assumption|].
      inversion Hacc as [|? ? Ha Hacc']; subst.
      destruct (proper_not_special a Ha) as (_ & _ & ->).
      apply IH; assumption.
    + cbn [negb orb]. apply IH; [assumption..|].
      constructor; [|exact Hacc]. repeat split; try assumption.
      destruct c; [contradiction|reflexivity].
Qed.

(** The normal form of an absolute path. *)
Lemma normpath_absolute_form path :
  OsPath.isabs path = true ->
  exists cs, Forall proper cs /\ OsPath.normpath path = rooted (lead path) cs.
Proof.
  intros H. destruct (lead_absolute path H) as [Hk | Hk].
  all: exists (OsPath.normpath_comps (lead path) (split_slash path) []).
  all: (split; [apply normpath_comps_names;
                [rewrite Hk; discriminate|apply split_slash_no_slash|constructor]|]).
  all: rewrite normpath_unfold by (destruct path; [discriminate H|reflexivity]).
  all: cbv zeta; rewrite truthy_rooted by (rewrite Hk; auto); reflexivity.
Qed.

(** Joining a relative path made of components to a rooted one. *)
Lemma join2_rooted k cs r l :
  k = 1 \/ k = 2 -> Forall component cs -> Forall component (r :: l) ->
  OsPath.join2 (rooted k cs) (Py.join "/" (r :: l)) = rooted k (cs ++ r :: l).
Proof.
  intros Hk Hcs Hl. inversion Hl as [|? ? Hr _]; subst.
  unfold OsPath.join2. rewrite join_cons_tail, (component_relative r l Hr).
  rewrite truthy_rooted by exact Hk. cbn [negb orb]. unfold rooted.
  destruct cs as [|a cs].
  - cbn [app]. rewrite join_cons_tail.
    destruct Hk as [-> | ->]; reflexivity.
  - destruct (components_end a cs Hcs) as [Ht He].
    cbn [app]. rewrite !join_cons_tail, tail_join_app.
    rewrite endswith_append by exact Ht. rewrite He.
    cbn [tail_join]. rewrite !append_assoc. reflexivity.
Qed.

(** *** [relpath] leads back *)

Lemma abspath_located cwd path :
  OsPath.abspath cwd path = OsPath.normpath (located cwd path).
Proof. unfold OsPath.abspath, located. destruct (OsPath.isabs path); reflexivity. Qed.

Lemma located_absolute cwd path :
  OsPath.isabs cwd = true -> OsPath.isabs (located cwd path) = true.
Proof.
  intros H. unfold located. destruct (OsPath.isabs path) eqn:Hp; [exact Hp|].
  unfold OsPath.join, OsPath.isabs in *. cbn [fold_left]. unfold OsPath.join2.
  rewrite Hp.
  destruct (negb (truthy cwd) || endswith_char "/" cwd);
    apply startswith_slash_append, H.
Qed.

(** Joining a relative path keeps the root of the current directory. *)
Lemma lead_located_relative cwd path :
  OsPath.isabs cwd = true -> OsPath.isabs path = false ->
  lead (located cwd path) = lead cwd.
Proof.
  unfold OsPath.isabs, located. intros Hc Hp. unfold OsPath.isabs. rewrite Hp.
  unfold OsPath.join. cbn [fold_left]. unfold OsPath.join2. rewrite Hp.
  destruct cwd as [|c1 cwd]; [discriminate Hc|].
  cbn [startswith] in Hc. destruct (Ascii.eqb_spec "/" c1) as [<-|]; [|discriminate Hc].
  clear Hc. cbn [truthy negb orb].
  destruct cwd as [|c2 cwd].
  - cbn [endswith_char]. rewrite Ascii.eqb_refl.
    destruct path as [|p path]; [reflexivity|].
    cbn [startswith] in Hp. unfold lead. cbn [String.append startswith].
    rewrite Ascii.eqb_refl. destruct (Ascii.eqb "/" p); [discriminate Hp|reflexivity].
  - destruct cwd as [|c3 cwd].
    + cbn [endswith_char]. destruct (Ascii.eqb_spec c2 "/") as [->|Hc2].
      * destruct path as [|p path]; [reflexivity|].
        cbn [startswith] in Hp. unfold lead. cbn [String.append startswith].
        rewrite !Ascii.eqb_refl. destruct (Ascii.eqb "/" p); [discriminate Hp|reflexivity].
      * unfold lead. cbn [String.append startswith]. rewrite !Ascii.eqb_refl.
        destruct (Ascii.eqb_spec "/" c2) as [E|_]; [congruence|reflexivity].
    + destruct (endswith_char "/" (String "/" (String c2 (String c3 cwd))));
        unfold lead; cbn [String.append startswith]; reflexivity.
Qed.

(** From the normalised [start], the relative path that [relpath]
    computes for [path] leads to the normalised [path], provided both
    hang from the same root. *)
Lemma relpath_leads_back cwd path start :
  OsPath.isabs cwd = true -> truthy path = true ->
  lead (located cwd start) = lead (located cwd path) ->
  exists rel,
    OsPath.relpath cwd path start = Some rel
    /\ OsPath.isabs rel = false
    /\ OsPath.abspath (OsPath.abspath cwd start) rel = OsPath.abspath cwd path.
Proof.
  intros Hcwd Hpath Hlead. unfold OsPath.relpath. rewrite Hpath. cbn [negb]. cbv zeta.
  rewrite !abspath_located.
  destruct (normpath_absolute_form _ (located_absolute cwd start Hcwd))
    as (sa & Hsa & ->).
  destruct (normpath_absolute_form _ (located_absolute cwd path Hcwd))
    as (sb & Hsb & ->).
  rewrite Hlead.
  pose proof (lead_absolute _ (located_absolute cwd path Hcwd)) as Hk.
  set (k := lead (located cwd path)) in *.
  assert (Hk0 : k <> 0) by (destruct Hk as [-> | ->]; discriminate).
  pose proof (proper_component _ Hsa) as Hca.
  pose proof (proper_component _ Hsb) as Hcb.
  rewrite !nonempty_comps_rooted by assumption.
  set (i := OsPath.common_len sa sb).
  pose proof (up_and_down k sa sb Hk0 Hsa Hsb) as Hud. cbv zeta in Hud. fold i in Hud.
  assert (Hrel : Forall component
            (List.repeat ".." (length sa - i) ++ List.skipn i sb)).
  { apply List.Forall_app. split.
    - apply List.Forall_forall. intros x Hx. apply List.repeat_spec in Hx. subst x.
      split; reflexivity.
    - rewrite List.Forall_forall in Hcb |- *. intros x Hx. apply Hcb.
      rewrite <- (List.firstn_skipn i sb). apply List.in_or_app. right. exact Hx. }
  assert (Hgo : forall r l,
            Forall component (r :: l) ->
            OsPath.normpath_comps k (sa ++ r :: l) [] = sb ->
            OsPath.normpath (located (rooted k sa) (Py.join "/" (r :: l)))
            = rooted k sb).
  { intros r l Hl Hn. unfold located, OsPath.isabs.
    pose proof (List.Forall_inv Hl) as Hr.
    rewrite (join_cons_tail l r), (component_relative r l Hr).
    unfold OsPath.join. cbn [fold_left]. rewrite <- (join_cons_tail l r).
    rewrite join2_rooted by assumption.
    rewrite normpath_rooted;
      [|exact Hk|apply List.Forall_app; split; assumption].
    rewrite Hn. reflexivity. }
  destruct (List.repeat ".." (length sa - i) ++ List.skipn i sb) as [|a p].
  - eexists. split; [reflexivity|]. split; [reflexivity|].
    rewrite abspath_located. apply (Hgo "." []); [repeat constructor|].
    rewrite normpath_comps_app. cbn [OsPath.normpath_comps].
    change (String.eqb "." "" || String.eqb "." ".") with true. cbv iota.
    rewrite rev_involutive. rewrite app_nil_r in Hud. exact Hud.
  - eexists. split; [reflexivity|].
    destruct (List.Forall_inv Hrel) as [Ha Hs].
    pose proof (List.Forall_inv_tail Hrel) as Hp.
    rewrite join_tail_join;
      [|exact Ha|apply component_no_trailing_slash, Hs|exact Hp].
    split; [apply component_relative; split; assumption|].
    rewrite <- join_cons_tail, abspath_located. apply Hgo; assumption.
Qed.

(** *** Paths below a directory *)

Lemma split_slash_nonempty s : split_slash s <> [].
Proof.
  destruct s as [|c s]; [discriminate|]. cbn [split_slash].
  destruct (Ascii.eqb c "/"); [discriminate|]. destruct (split_slash s); discriminate.
Qed.

Lemma split_slash_app x z :
  split_slash (x +:+ "/" +:+ z) = split_slash x ++ split_slash z.
Proof.
  induction x as [|c x IH].
  - cbn [String.append split_slash]. rewrite Ascii.eqb_refl. reflexivity.
  - cbn [String.append split_slash] in IH |- *. rewrite IH.
    destruct (Ascii.eqb c "/"); [reflexivity|].
    pose proof (split_slash_nonempty x) as Hx.
    destruct (split_slash x); [contradiction|reflexivity].
Qed.

Lemma endswith_slash_inv x :
  endswith_char "/" x = true -> exists x', x = x' +:+ "/".
Proof.
  induction x as [|c x IH]; [discriminate|].
  destruct x as [|c' x].
  - cbn [endswith_char]. intros H. apply Ascii.eqb_eq in H. subst c. exists "". reflexivity.
  - intros H. destruct (IH H) as [x' Hx']. exists (String c x'). rewrite Hx'. reflexivity.
Qed.

Lemma split_slash_join2 x out :
  truthy x = true -> startswith "/" out = false ->
  List.filter truthy (split_slash (OsPath.join2 x out))
  = List.filter truthy (split_slash x) ++ List.filter truthy (split_slash out).
Proof.
  intros Hx Ho. unfold OsPath.join2. rewrite Ho, Hx. cbn [negb orb].
  destruct (endswith_char "/" x) eqn:He.
  - destruct (endswith_slash_inv x He) as [x' ->].
    rewrite append_assoc, split_slash_app, List.filter_app.
    rewrite <- (append_nil_r (x' +:+ "/")).
    rewrite append_assoc, split_slash_app, List.filter_app.
    cbn [split_slash List.filter truthy]. rewrite app_nil_r. reflexivity.
  - rewrite split_slash_app, List.filter_app. reflexivity.
Qed.

Lemma join2_absolute x out :
  OsPath.isabs x = true -> OsPath.isabs out = false ->
  OsPath.isabs (OsPath.join2 x out) = true /\ lead (OsPath.join2 x out) = lead x.
Proof.
  intros Hx Ho. pose proof (located_absolute x out Hx) as H1.
  pose proof (lead_located_relative x out Hx Ho) as H2.
  unfold located in H1, H2. rewrite Ho in H1, H2. split; assumption.
Qed.

(** Below an absolute directory the normal form continues from the
    names of the directory. *)
Lemma normpath_join2 x out :
  OsPath.isabs x = true -> OsPath.isabs out = false ->
  OsPath.normpath (OsPath.join2 x out)
  = rooted (lead x)
      (OsPath.normpath_comps (lead x) (split_slash out)
         (rev (OsPath.normpath_comps (lead x) (split_slash x) []))).
Proof.
  intros Hx Ho. destruct (join2_absolute x out Hx Ho) as [Ha Hl].
  assert (Ht : truthy x = true) by (destruct x; [discriminate Hx|reflexivity]).
  rewrite normpath_unfold by (destruct (OsPath.join2 x out); [discriminate Ha|reflexivity]).
  rewrite Hl. cbv zeta. rewrite truthy_rooted by (apply lead_absolute, Hx).
  rewrite <- normpath_comps_filter, split_slash_join2 by assumption.
  rewrite normpath_comps_app, !normpath_comps_filter. reflexivity.
Qed.

Lemma normpath_form path :
  OsPath.isabs path = true ->
  OsPath.normpath path
  = rooted (lead path) (OsPath.normpath_comps (lead path) (split_slash path) []).
Proof.
  intros H. rewrite normpath_unfold by (destruct path; [discriminate H|reflexivity]).
  cbv zeta. rewrite truthy_rooted by (apply lead_absolute, H). reflexivity.
Qed.

Lemma normpath_names path :
  OsPath.isabs path = true ->
  Forall proper (OsPath.normpath_comps (lead path) (split_slash path) []).
Proof.
  intros H. apply normpath_comps_names; [|apply split_slash_no_slash|constructor].
  destruct (lead_absolute path H) as [-> | ->]; discriminate.
Qed.

(** Two absolute directories with the same normal form have the same
    paths below them. *)
Lemma normpath_join2_same x y out :
  OsPath.isabs x = true -> OsPath.isabs y = true ->
  OsPath.normpath x = OsPath.normpath y -> OsPath.isabs out = false ->
  OsPath.normpath (OsPath.join2 x out) = OsPath.normpath (OsPath.join2 y out).
Proof.
  intros Hx Hy E Ho. rewrite !normpath_join2 by assumption.
  rewrite !normpath_form in E by assumption.
  pose proof (proper_component _ (normpath_names x Hx)) as Cx.
  pose proof (proper_component _ (normpath_names y Hy)) as Cy.
  pose proof (lead_absolute x Hx) as Kx. pose proof (lead_absolute y Hy) as Ky.
  assert (Ek : lead x = lead y).
  { rewrite <- (lead_rooted (lead x) _ Kx Cx), E. apply lead_rooted; assumption. }
  assert (Ec : OsPath.normpath_comps (lead x) (split_slash x) []
               = OsPath.normpath_comps (lead y) (split_slash y) []).
  { rewrite <- (nonempty_comps_rooted (lead x) _ Kx Cx), E.
    apply nonempty_comps_rooted; assumption. }
  rewrite Ec, Ek. reflexivity.
Qed.

Lemma normpath_dot_slash cwd :
  OsPath.isabs cwd = true ->
  OsPath.normpath (OsPath.join2 cwd "./") = OsPath.normpath cwd.
Proof.
  intros H. rewrite normpath_join2 by (exact H || reflexivity).
  rewrite (normpath_form cwd H). cbn [split_slash]. 
  change (Ascii.eqb "." "/") with false. change (Ascii.eqb "/" "/") with true. cbv iota.
  cbn [OsPath.normpath_comps]. 
  change (String.eqb "." "" || String.eqb "." ".") with true.
  change (String.eqb "" "" || String.eqb "" ".") with true. cbv iota.
  rewrite rev_involutive. reflexivity.
Qed.

Lemma join2_component_like x rel :
  truthy x = true -> truthy rel = true -> endswith_char "/" rel = false ->
  startswith "/" rel = false ->
  truthy (OsPath.join2 x rel) = true
  /\ endswith_char "/" (OsPath.join2 x rel) = false.
Proof.
  intros Hx Tr Sr Hr. unfold OsPath.join2. rewrite Hr, Hx. cbn [negb orb].
  destruct (endswith_char "/" x).
  - split; [destruct x; [discriminate Hx|reflexivity]|].
    rewrite endswith_append by exact Tr. exact Sr.
  - split; [destruct x; [discriminate Hx|reflexivity]|].
    rewrite endswith_append by (destruct rel; [discriminate Tr|reflexivity]).
    rewrite endswith_append by exact Tr. exact Sr.
Qed.

Lemma startswith_slash_truthy x y :
  truthy x = true -> startswith "/" (x +:+ y) = startswith "/" x.
Proof. destruct x; [discriminate|reflexivity]. Qed.

(** X11. In module mode the go commands run in the module directory
    [p] and write to [${out}] behind the prefix that the generator
    computes. With an absolute current directory and a relative [p],
    that prefix followed by any relative output path names, from
    inside [p], the same file as the output path names from the
    current directory. *)
Theorem module_output_same_file cfg out :
  OsPath.isabs (getcwd cfg) = true ->
  OsPath.isabs (go_module_relpath cfg) = false ->
  OsPath.isabs out = false ->
  exists rel_out,
    OsPath.relpath (getcwd cfg) "./" (go_module_relpath cfg) = Some rel_out
    /\ OsPath.abspath
         (OsPath.abspath (getcwd cfg) (go_module_relpath cfg))
         (OsPath.join rel_out [""] +:+ out)
       = OsPath.abspath (getcwd cfg) out.
Proof.
  intros Hcwd Hp Hout.
  destruct (relpath_leads_back (getcwd cfg) "./" (go_module_relpath cfg) Hcwd eq_refl)
    as (rel & Erel & Hrel & Hback).
  { rewrite !lead_located_relative by (assumption || reflexivity). reflexivity. }
  destruct (relpath_some (getcwd cfg) "./" (go_module_relpath cfg) eq_refl)
    as (rel' & Erel' & Trel & Srel).
  rewrite Erel in Erel'. injection Erel' as <-.
  exists rel. split; [exact Erel|].
  set (dir := OsPath.abspath (getcwd cfg) (go_module_relpath cfg)) in *.
  assert (Hdir : OsPath.isabs dir = true) by (apply abspath_absolute, Hcwd).
  assert (Tdir : truthy dir = true) by (destruct dir; [discriminate Hdir|reflexivity]).
  unfold OsPath.isabs in Hrel, Hout.
  assert (Ejoin : OsPath.join rel [""] = rel +:+ "/").
  { unfold OsPath.join, OsPath.join2. cbn [fold_left startswith].
    rewrite Trel, Srel. reflexivity. }
  rewrite Ejoin.
  assert (Esplit : OsPath.join2 dir ((rel +:+ "/") +:+ out)
                   = OsPath.join2 (OsPath.join2 dir rel) out).
  { destruct (join2_component_like dir rel) as [T2 S2]; try assumption.
    unfold OsPath.join2 at 2. rewrite Hout, T2, S2. cbn [negb orb].
    unfold OsPath.join2.
    rewrite append_assoc, (startswith_slash_truthy rel _ Trel), Hrel, Tdir.
    cbn [negb orb]. destruct (endswith_char "/" dir); rewrite !append_assoc; reflexivity. }
  unfold OsPath.abspath at 1. unfold OsPath.isabs.
  rewrite append_assoc, (startswith_slash_truthy rel _ Trel), Hrel.
  rewrite <- append_assoc. unfold OsPath.join. cbn [fold_left]. rewrite Esplit.
  rewrite (normpath_join2_same (OsPath.join2 dir rel) (getcwd cfg) out).
  - unfold OsPath.abspath, OsPath.isabs. rewrite Hout. reflexivity.
  - apply join2_absolute; assumption.
  - exact Hcwd.
  - unfold OsPath.abspath at 1 in Hback. unfold OsPath.isabs in Hback.
    rewrite Hrel in Hback. unfold OsPath.join in Hback. cbn [fold_left] in Hback.
    rewrite Hback. unfold OsPath.abspath. cbn [OsPath.isabs startswith].
    change (Ascii.eqb "/" ".") with false. cbv iota.
    unfold OsPath.join. cbn [fold_left]. apply normpath_dot_slash, Hcwd.
  - exact Hout.
Qed.

(** X11 at [cfg_go] and an output below the build directory. *)
Lemma module_output_same_file_witness :
  exists rel_out,
    OsPath.relpath "/home/u/ws" "./" "src/mod" = Some rel_out
    /\ OsPath.abspath (OsPath.abspath "/home/u/ws" "src/mod")
         (OsPath.join rel_out [""] +:+ "build64_release/app/main")
       = OsPath.abspath "/home/u/ws" "build64_release/app/main".
Proof.
  exact (module_output_same_file cfg_go "build64_release/app/main"
           eq_refl eq_refl eq_refl).
Defined.

Example module_output_example :
  OsPath.abspath "/home/u/ws/src/mod" "../../build64_release/app/main"
  = "/home/u/ws/build64_release/app/main".
Proof. vm_compute. reflexivity. Qed.

Lemma lead_single_root path :
  OsPath.isabs path = true -> startswith "//" path = false -> lead path = 1.
Proof. unfold OsPath.isabs, lead. intros -> ->. reflexivity. Qed.

(** X12. In module mode the go commands call the go binary by the path
    that the generator computes relative to the module directory [p].
    With an absolute current directory, a relative [p] and no path
    that starts with two slashes, that path names, from inside [p],
    the same file as the configured go binary names from the current
    directory. *)
Theorem module_go_binary_same_file cfg :
  OsPath.isabs (getcwd cfg) = true ->
  startswith "//" (getcwd cfg) = false ->
  OsPath.isabs (go_module_relpath cfg) = false ->
  truthy (go cfg) = true ->
  startswith "//" (go cfg) = false ->
  exists rel_go,
    OsPath.relpath (getcwd cfg) (go cfg) (go_module_relpath cfg) = Some rel_go
    /\ OsPath.abspath
         (OsPath.abspath (getcwd cfg) (go_module_relpath cfg)) rel_go
       = OsPath.abspath (getcwd cfg) (go cfg).
Proof.
  intros Hcwd Hcwd2 Hp Hgo Hgo2.
  destruct (relpath_leads_back (getcwd cfg) (go cfg) (go_module_relpath cfg) Hcwd Hgo)
    as (rel & Erel & _ & Hback).
  - rewrite (lead_located_relative _ _ Hcwd Hp), (lead_single_root _ Hcwd Hcwd2).
    destruct (OsPath.isabs (go cfg)) eqn:Habs.
    + unfold located. rewrite Habs. symmetry. apply lead_single_root; assumption.
    + rewrite (lead_located_relative _ _ Hcwd Habs). symmetry.
      apply lead_single_root; assumption.
  - exists rel. split; assumption.
Qed.

(** X12 at [cfg_go]. *)
Lemma module_go_binary_same_file_witness :
  exists rel_go,
    OsPath.relpath "/home/u/ws" "/usr/local/go/bin/go" "src/mod" = Some rel_go
    /\ OsPath.abspath (OsPath.abspath "/home/u/ws" "src/mod") rel_go
       = OsPath.abspath "/home/u/ws" "/usr/local/go/bin/go".
Proof.
  exact (module_go_binary_same_file cfg_go eq_refl eq_refl eq_refl eq_refl eq_refl).
Defined.

(** With a current directory that starts with two slashes the root is
    not the one of the go binary, and the relative path leads
    elsewhere. *)
Example two_slashes_lead_elsewhere :
  OsPath.relpath "//home/u/ws" "/usr/go" "src/mod" = Some "../../../../../usr/go"
  /\ OsPath.abspath (OsPath.abspath "//home/u/ws" "src/mod") "../../../../../usr/go"
     = "//usr/go"
  /\ OsPath.abspath "//home/u/ws" "/usr/go" = "/usr/go".
Proof. vm_compute. repeat split; reflexivity. Qed.

(** ** The version file *)

Lemma appends_routines cfg :
  appends (generate_file_header cfg) /\ appends (generate_common_rules cfg)
  /\ appends (generate_cc_rules cfg) /\ appends (generate_proto_rules cfg)
  /\ appends (generate_resource_rules cfg) /\ appends (generate_java_scala_rules cfg)
  /\ appends (generate_thrift_rules cfg) /\ appends (generate_python_rules cfg)
  /\ appends (generate_go_rules cfg) /\ appends (generate_shell_rules cfg)
  /\ appends (generate_lex_yacc_rules cfg) /\ appends (generate_package_rules cfg).
Proof.
  unfold generate_file_header, generate_common_rules,
    generate_cc_rules, generate_cc_warning_vars, generate_proto_rules,
    generate_resource_rules, generate_java_scala_rules, generate_javac_rules,
    generate_java_resource_rules, generate_java_test_rules,
    generate_java_binary_rules, generate_scala_rules, generate_thrift_rules,
    generate_python_rules, generate_go_rules, generate_shell_rules,
    generate_lex_yacc_rules, generate_package_rules.
  repeat split; repeat (cbv zeta; appends_step).
Qed.

(** A step that returns leaves what follows a longer buffer. *)
Lemma bind_ok_appends {A B} (m : M A) (f : A -> M B) s0 s b s' :
  appends m -> rules_buf s0 `prefix_of` rules_buf s ->
  (m ≫= f) s = Ok b s' ->
  exists a s1, rules_buf s0 `prefix_of` rules_buf s1 /\ f a s1 = Ok b s'.
Proof.
  intros Hm Hpre. rewrite run_bind.
  destruct (Hm s) as (lines & names & Hb & _).
  destruct (m s) as [a s1|e s1]; [|discriminate]. cbn [final] in Hb.
  intros H. exists a, s1. split; [|exact H].
  rewrite Hb. destruct Hpre as [k ->]. exists (k ++ lines). symmetry. apply app_assoc.
Qed.

(** [generate] ends with the version rules. *)
Lemma generate_ends_with_version cfg s buf s' :
  generate cfg s = Ok buf s' ->
  exists s1, rules_buf s `prefix_of` rules_buf s1
    /\ generate_version_rules cfg s1 = Ok tt s' /\ buf = rules_buf s'.
Proof.
  destruct (appends_routines cfg)
    as (H1 & H2 & H3 & H4 & H5 & H6 & H7 & H8 & H9 & H10 & H11 & H12).
  unfold generate. intros H.
  assert (P : rules_buf s `prefix_of` rules_buf s) by reflexivity.
  revert P H. generalize s at 2 3. intros s1 P H.
  apply (bind_ok_appends _ _ s s1 _ _ H1 P) in H. clear s1 P. destruct H as (_ & s1 & P & H).
  apply (bind_ok_appends _ _ s s1 _ _ H2 P) in H. clear s1 P. destruct H as (_ & s1 & P & H).
  apply (bind_ok_appends _ _ s s1 _ _ H3 P) in H. clear s1 P. destruct H as (_ & s1 & P & H).
  apply (bind_ok_appends _ _ s s1 _ _ H4 P) in H. clear s1 P. destruct H as (_ & s1 & P & H).
  apply (bind_ok_appends _ _ s s1 _ _ H5 P) in H. clear s1 P. destruct H as (_ & s1 & P & H).
  apply (bind_ok_appends _ _ s s1 _ _ H6 P) in H. clear s1 P. destruct H as (_ & s1 & P & H).
  apply (bind_ok_appends _ _ s s1 _ _ H7 P) in H. clear s1 P. destruct H as (_ & s1 & P & H).
  apply (bind_ok_appends _ _ s s1 _ _ H8 P) in H. clear s1 P. destruct H as (_ & s1 & P & H).
  apply (bind_ok_appends _ _ s s1 _ _ H9 P) in H. clear s1 P. destruct H as (_ & s1 & P & H).
  apply (bind_ok_appends _ _ s s1 _ _ H10 P) in H. clear s1 P. destruct H as (_ & s1 & P & H).
  apply (bind_ok_appends _ _ s s1 _ _ H11 P) in H. clear s1 P. destruct H as (_ & s1 & P & H).
  apply (bind_ok_appends _ _ s s1 _ _ H12 P) in H. clear s1 P. destruct H as (_ & s1 & P & H).
  exists s1. split; [exact P|].
  rewrite run_bind in H.
  destruct (generate_version_rules cfg s1) as [[] s2|e s2]; [|discriminate].
  unfold get_rules_buf in H. injection H as <- <-. split; reflexivity.
Qed.

Lemma version_rules_lines cfg s :
  exists s' block,
    generate_version_rules cfg s = Ok tt s'
    /\ rules_buf s'
       = rules_buf s ++ block
         ++ [version_statement cfg; version_object_statement cfg]
    /\ In (rule_header "scm") block.
Proof.
  unfold generate_version_rules, version_statement, version_object_statement,
    version_file.
  destruct (load_scm cfg) as [revision url]. cbn [fst snd].
  eexists.
  exists (rule_block cfg "scm"
            (_toolchain_command cfg "scm" ""
               ("${out} ${revision} ${url} ${profile} " +:+ dq +:+ "${compiler}" +:+ dq))
            (Some "SCM ${out}") None false None false None None None).
  split; [run_head|].
  split.
  - rewrite ?extend_extend. unfold extend. cbn [rules_buf all_rule_names environ].
    reflexivity.
  - unfold rule_block. left. reflexivity.
Qed.

Lemma cxx_is_generated cfg : In "cxx" (generate_rule_names cfg).
Proof. unfold generate_rule_names, cc_rule_names. cbn. auto. Qed.

(** X13. Unless [generate] stops on the configuration error, what it
    adds ends with the two build statements of the version file: one
    that makes [scm.cc] in the build directory with rule [scm], one
    that compiles it with rule [cxx]. Both rules are declared in the
    lines added before these statements. *)
Theorem version_statements_use_declared_rules cfg s :
  go_home_missing cfg = false ->
  exists added s',
    generate cfg s
    = Ok (rules_buf s ++ added
          ++ [version_statement cfg; version_object_statement cfg]) s'
    /\ In (rule_header "scm") added
    /\ In (rule_header "cxx") added.
Proof.
  intros Hgo. pose proof (generate_outcome cfg s) as Hout. rewrite Hgo in Hout.
  destruct Hout as (buf & s' & E).
  destruct (generate_ends_with_version cfg s buf s' E) as (s1 & [front Hfront] & Ev & ->).
  destruct (version_rules_lines cfg s1) as (s2 & block & Ev' & Hbuf & Hscm).
  rewrite Ev in Ev'. injection Ev' as <-.
  exists (front ++ block), s'. rewrite E, Hbuf, Hfront, <- !app_assoc.
  split; [reflexivity|]. split; [apply List.in_or_app; right; exact Hscm|].
  pose proof (defines_generate cfg s) as Hd. rewrite E in Hd.
  rewrite Hbuf, Hfront, <- !app_assoc, rule_decls_app in Hd.
  apply app_inv_head in Hd.
  assert (Hin : In (rule_header "cxx")
            (rule_decls (front ++ block
               ++ [version_statement cfg; version_object_statement cfg]))).
  { rewrite Hd. apply List.in_map, cxx_is_generated. }
  apply List.filter_In in Hin as [Hin _].
  rewrite app_assoc in Hin. apply List.in_app_or in Hin as [Hin|Hin]; [exact Hin|].
  destruct Hin as [Hin|[Hin|[]]]; discriminate Hin.
Qed.

(** X13 at [cfg0]. *)
Lemma version_statements_use_declared_rules_witness :
  exists added s',
    generate cfg0 (fresh_generator ∅)
    = Ok (rules_buf (fresh_generator ∅) ++ added
          ++ [version_statement cfg0; version_object_statement cfg0]) s'
    /\ In (rule_header "scm") added
    /\ In (rule_header "cxx") added.
Proof.
  exact (version_statements_use_declared_rules cfg0 (fresh_generator ∅) eq_refl).
Defined.

(** The statements for [cfg0], as text. *)
Example version_statements_example :
  version_statement cfg0
  = "build build64_release/scm.cc: scm" +:+ nl +:+
    "  revision = r100" +:+ nl +:+
    "  url = https://svn.example.org/ws" +:+ nl +:+
    "  profile = release" +:+ nl +:+
    "  compiler = gcc 9.4.0" +:+ nl +:+ nl
  /\ version_object_statement cfg0
     = "build build64_release/scm.cc.o: cxx build64_release/scm.cc" +:+ nl +:+
       "  cppflags = -w -O2" +:+ nl +:+
       "  cxx_warnings =" +:+ nl +:+ nl.
Proof. split; vm_compute; reflexivity. Qed.

(** ** The linker and the process environment *)

(** X14. The [link] and [solink] commands call the linker named by
    [LD] in the environment, [g++] without it, and ccache is never put
    before it; the secure compile command calls the [securecc] wrapper
    followed by the C++ compiler command, its [ccache] included when
    ccache is installed. *)
Theorem linker_runs_without_ccache cfg s :
  exists s' lines,
    generate_cc_rules cfg s = Ok tt s'
    /\ rules_buf s' = rules_buf s ++ lines
    /\ let CXX := default "g++" (environ s !! "CXX") in
       let LD := default "g++" (environ s !! "LD") in
       let cxx := if ccache_installed cfg then "ccache " +:+ CXX else CXX in
       let command_of name := nth 0 (block_of name lines) "" in
       (exists rest,
          command_of "link" = "  command = " +:+ LD +:+ " -o ${out} " +:+ rest)
       /\ (exists rest,
             command_of "solink"
             = "  command = " +:+ LD +:+ " -o ${out} -shared " +:+ rest)
       /\ (exists rest,
             command_of "securecccompile"
             = "  command = " +:+ securecc cfg +:+ " " +:+ cxx +:+ " -o ${out} -c -fPIC "
               +:+ rest).
Proof.
  cc_cases cfg.
  all: run_to_lines.
  all: expand_blocks.
  all: repeat split; eexists; simpl; rewrite !append_assoc; simpl; reflexivity.
Qed.

Example linker_from_environment :
  nth 0 (block_of "link"
    (rules_buf (final (generate_cc_rules cfg_ccache
       (fresh_generator {[ "LD" := "clang++" ]}))))) ""
  = "  command = clang++ -o ${out} -Llib -m64 ${ldflags} ${in} ${extra_ldflags}" +:+ nl.
Proof. vm_compute. reflexivity. Qed.

Lemma keeps_ret {A} (a : A) : keeps_environ (mret a : M A).
Proof. intros s. reflexivity. Qed.

Lemma keeps_raise {A} e : keeps_environ (raise e : M A).
Proof. intros s. reflexivity. Qed.

Lemma keeps_bind {A B} (m : M A) (f : A -> M B) :
  keeps_environ m -> (forall a, keeps_environ (f a)) -> keeps_environ (m ≫= f).
Proof.
  intros Hm Hf s. rewrite run_bind. specialize (Hm s).
  destruct (m s) as [a s1|e s1]; cbn [final] in *; [|exact Hm].
  rewrite Hf. exact Hm.
Qed.

Lemma keeps_add_rule rule : keeps_environ (_add_rule rule).
Proof. intros s. reflexivity. Qed.

Lemma keeps_generate_rule cfg name command description depfile generator
    pool restat rspfile rspfile_content deps :
  keeps_environ (generate_rule cfg name command description depfile generator pool
                   restat rspfile rspfile_content deps).
Proof. intros s. rewrite run_generate_rule. reflexivity. Qed.

Lemma keeps_generate_rule_desc cfg name command description :
  keeps_environ (generate_rule_desc cfg name command description).
Proof. unfold generate_rule_desc. apply keeps_generate_rule. Qed.

Lemma keeps_getenv k d : keeps_environ (getenv k d).
Proof. intros s. reflexivity. Qed.

Lemma keeps_get_rules_buf : keeps_environ get_rules_buf.
Proof. intros s. reflexivity. Qed.

Lemma keeps_when c body : keeps_environ body -> keeps_environ (when c body).
Proof. intros H. destruct c; [exact H|apply keeps_ret]. Qed.

Lemma keeps_if {A} (c : bool) (m1 m2 : M A) :
  keeps_environ m1 -> keeps_environ m2 -> keeps_environ (if c then m1 else m2).
Proof. intros H1 H2. destruct c; assumption. Qed.

Lemma keeps_relpath cfg path start : keeps_environ (relpath cfg path start).
Proof.
  unfold relpath. destruct (OsPath.relpath _ _ _);
    [apply keeps_ret|apply keeps_raise].
Qed.

Ltac keeps_step :=
  lazymatch goal with
  | |- keeps_environ (mbind _ _) => apply keeps_bind; [|intros ?]
  | |- keeps_environ (generate_rule _ _ _ _ _ _ _ _ _ _ _) => apply keeps_generate_rule
  | |- keeps_environ (generate_rule_desc _ _ _ _) => apply keeps_generate_rule_desc
  | |- keeps_environ (_add_rule _) => apply keeps_add_rule
  | |- keeps_environ (mret _) => apply keeps_ret
  | |- keeps_environ (raise _) => apply keeps_raise
  | |- keeps_environ (error_exit _) => apply keeps_raise
  | |- keeps_environ (getenv _ _) => apply keeps_getenv
  | |- keeps_environ (relpath _ _ _) => apply keeps_relpath
  | |- keeps_environ get_rules_buf => apply keeps_get_rules_buf
  | |- keeps_environ (when _ _) => apply keeps_when
  | |- keeps_environ (if _ then _ else _) => apply keeps_if
  | |- keeps_environ (match ?p with (_, _) => _ end) => destruct p
  | |- keeps_environ (match ?p with Some _ => _ | None => _ end) => destruct p
  end.

(** The environment after the C and C++ rules. *)
Lemma cc_rules_environ cfg s :
  exists s', generate_cc_rules cfg s = Ok tt s'
    /\ environ s' = ccache_environ cfg (environ s).
Proof.
  unfold ccache_environ. cc_cases cfg.
  all: eexists; split; [run_head|].
  all: rewrite ?extend_extend; unfold extend; cbn [rules_buf all_rule_names environ].
  all: reflexivity.
Qed.

Lemma generate_environ cfg s :
  environ (final (generate cfg s)) = ccache_environ cfg (environ s).
Proof.
  unfold generate.
  assert (K1 : keeps_environ (generate_file_header cfg))
    by (unfold generate_file_header; repeat (cbv zeta; keeps_step)).
  assert (K2 : keeps_environ (generate_common_rules cfg))
    by (unfold generate_common_rules; repeat (cbv zeta; keeps_step)).
  destruct (succeeds_before_proto cfg) as (H1 & H2 & _).
  destruct (H1 s) as ([] & s1 & E1). rewrite (run_bind_ok _ _ _ _ _ E1).
  destruct (H2 s1) as ([] & s2 & E2). rewrite (run_bind_ok _ _ _ _ _ E2).
  destruct (cc_rules_environ cfg s2) as (s3 & E3 & Henv).
  rewrite (run_bind_ok _ _ _ _ _ E3).
  specialize (K1 s). rewrite E1 in K1. specialize (K2 s1). rewrite E2 in K2.
  cbn [final] in K1, K2. rewrite <- K1, <- K2, <- Henv.
  lazymatch goal with
  | |- environ (final (?m s3)) = _ => assert (K : keeps_environ m)
  end.
  { unfold generate_proto_rules,
      generate_resource_rules, generate_java_scala_rules, generate_javac_rules,
      generate_java_resource_rules, generate_java_test_rules,
      generate_java_binary_rules, generate_scala_rules, generate_thrift_rules,
      generate_python_rules, generate_go_rules, generate_shell_rules,
      generate_lex_yacc_rules, generate_package_rules, generate_version_rules.
    repeat (cbv zeta; keeps_step). }
  apply K.
Qed.

(** X15. Apart from the two variables set for ccache by the C and C++
    rules, [generate] leaves the process environment as it found it,
    whether it returns or stops on the configuration error: with
    ccache installed [CCACHE_BASEDIR] and [CCACHE_NOHASHDIR] are set
    and nothing else changes, without it nothing changes. *)
Theorem generate_environment cfg s :
  environ (final (generate cfg s))
  = (if ccache_installed cfg then
       <[ "CCACHE_NOHASHDIR" := "true" ]>
         (<[ "CCACHE_BASEDIR" := blade_root_dir cfg ]> (environ s))
     else environ s)
  /\ forall k, k <> "CCACHE_BASEDIR" -> k <> "CCACHE_NOHASHDIR" ->
       environ (final (generate cfg s)) !! k = environ s !! k.
Proof.
  rewrite generate_environ. unfold ccache_environ. split; [reflexivity|].
  intros k H1 H2. destruct (ccache_installed cfg); [|reflexivity].
  rewrite !lookup_insert_ne by congruence. reflexivity.
Qed.
